(** * gen-cli: request shaping and size negotiation of [main.go]

    A shallow embedding of the decision logic of the [gen] command line
    client: the model registry, the ratio/preset resolver, the request
    builder of [runGenerate], the response handling of [callFALAPI] and
    the data URI construction of [imageToDataURI].

    Go maps are [gmap]s, Go's [float64] is IEEE 754 binary64 as specified
    by [SpecFloat] (precision 53, maximal exponent 1024, round to nearest
    even), Go's [int] is [Z] (no integer arithmetic of the program can
    overflow: the only one is [i+1] on a slice index).  Everything the
    program obtains from the operating system or the network is a
    field of the record [Env]; what it sends is recorded in the trace of
    the monad [Eff].  The progress messages on the standard output are
    left out. *)

From Stdlib Require Import ZArith Bool Ascii String SpecFloat Permutation.
From stdpp Require Import gmap strings list fin_maps pretty.

Set Warnings "-register-all".

Open Scope Z_scope.

(** ** IEEE 754 binary64 *)

Module Float64.
Abbreviation float64 := spec_float.

Definition prec : Z := 53.
Definition emax : Z := 1024.

(** [float64(n)] for an integer [n]: rounded to nearest, ties to even. *)
Definition of_int (n : Z) : float64 := binary_normalize prec emax n 0 false.

Definition div (x y : float64) : float64 := SFdiv prec emax x y.
Definition sub (x y : float64) : float64 := SFsub prec emax x y.
Definition neg (x : float64) : float64 := SFopp x.
Definition ltb (x y : float64) : bool := SFltb x y.

(** The constant [0] of the comparison [x < 0]. *)
Definition zero : float64 := S754_zero false.
End Float64.

(** ** Model registry *)

Record ModelInfo := {
  GenPath : string;
  EditPath : string;
  SupportsAutoImgSize : bool;
  SizeParamName : string
}.

Definition models : gmap string ModelInfo :=
  list_to_map [
    ("z-turbo", Build_ModelInfo "fal-ai/z-image/turbo" "" false "image_size");
    ("qwen", Build_ModelInfo "fal-ai/qwen-image" "fal-ai/qwen-image-edit-plus" false "image_size");
    ("flux2-pro", Build_ModelInfo "fal-ai/flux-2-pro" "fal-ai/flux-2-pro/edit" true "image_size");
    ("flux2-flex", Build_ModelInfo "fal-ai/flux-2-flex" "fal-ai/flux-2-flex/edit" true "image_size");
    ("nano-banana", Build_ModelInfo "fal-ai/nano-banana" "fal-ai/nano-banana/edit" true "aspect_ratio");
    ("nano-banana-pro", Build_ModelInfo "fal-ai/nano-banana-pro" "fal-ai/nano-banana-pro/edit" true "aspect_ratio")
  ].

Definition modelAliases : gmap string string :=
  list_to_map [("flux2", "flux2-pro")].

Definition resolveModel (name : string) : string :=
  match modelAliases !! name with
  | Some alias => alias
  | None => name
  end.

(** ** Ratio/preset resolver *)

Definition ratioToPreset : gmap string string :=
  list_to_map [
    ("9:16", "portrait_16_9");
    ("3:4", "portrait_4_3");
    ("1:1", "square_hd");
    ("4:3", "landscape_4_3");
    ("16:9", "landscape_16_9")
  ].

Definition aspectRatioSupported : gmap string bool :=
  list_to_map [
    ("21:9", true); ("16:9", true); ("3:2", true); ("4:3", true);
    ("5:4", true); ("1:1", true); ("4:5", true); ("3:4", true);
    ("2:3", true); ("9:16", true); ("auto", true)
  ].

(** The slice [aspectPresets].  A Go constant expression such as
    [4.0 / 3.0] is evaluated exactly and rounded once to [float64]; the
    numerator and the denominator are exact in binary64, so the correctly
    rounded division gives the same value. *)
Definition aspectPresets : list (string * Float64.float64) :=
  [ ("portrait_16_9", Float64.div (Float64.of_int 9) (Float64.of_int 16));
    ("portrait_4_3", Float64.div (Float64.of_int 3) (Float64.of_int 4));
    ("square_hd", Float64.of_int 1);
    ("landscape_4_3", Float64.div (Float64.of_int 4) (Float64.of_int 3));
    ("landscape_16_9", Float64.div (Float64.of_int 16) (Float64.of_int 9)) ].

Definition parseSize (s : string) : string :=
  match ratioToPreset !! s with
  | Some preset => preset
  | None => s
  end.

Definition abs (x : Float64.float64) : Float64.float64 :=
  if Float64.ltb x Float64.zero then Float64.neg x else x.

(** [diffTo ratio r] is the loop's [diff] for a preset of reference
    ratio [r]. *)
Definition diffTo (ratio r : Float64.float64) : Float64.float64 :=
  abs (Float64.sub ratio r).

(** One iteration of the loop of [getClosestPreset]; the accumulator is
    the pair [(closestPreset, closestDiff)]. *)
Definition closestStep (ratio : Float64.float64)
    (acc : string * Float64.float64) (preset : string * Float64.float64)
    : string * Float64.float64 :=
  let diff := diffTo ratio preset.2 in
  if Float64.ltb diff acc.2 then (preset.1, diff) else acc.

Definition closestInit : string * Float64.float64 :=
  ("square_hd", Float64.of_int 999).

Definition getClosestPreset (width height : Z) : string :=
  if ((width =? 0)%Z || (height =? 0)%Z)%bool then "square_hd"
  else
    let ratio := Float64.div (Float64.of_int width) (Float64.of_int height) in
    (foldl (closestStep ratio) closestInit aspectPresets).1.

(** The loop [for ratio, p := range ratioToPreset] of [getClosestRatio],
    run over the entries in the order [entries]: Go leaves the iteration
    order of a map unspecified, so the order is an argument. *)
Fixpoint presetToRatio (entries : list (string * string)) (preset : string) : string :=
  match entries with
  | [] => "1:1"
  | (ratio, p) :: rest =>
      if String.eqb p preset then ratio else presetToRatio rest preset
  end.

Definition getClosestRatioIn (entries : list (string * string)) (width height : Z) : string :=
  presetToRatio entries (getClosestPreset width height).

Definition getClosestRatio (width height : Z) : string :=
  getClosestRatioIn (map_to_list ratioToPreset) width height.

(** ** JSON: the part of [encoding/json] the program relies on *)

Module JSON.

Inductive json :=
| JNull
| JBool (b : bool)
| JNumber (lit : string)
| JString (s : string)
| JArray (elems : list json)
| JObject (members : list (string * json)).

(** *** Bytes *)

Definition code (c : ascii) : N := N_of_ascii c.
Definition byte (n : N) : ascii := ascii_of_N n.
Definition between (lo hi : N) (c : ascii) : bool :=
  ((lo <=? code c) && (code c <=? hi))%N.
Definition eqc (c d : ascii) : bool := Ascii.eqb c d.

Definition isSpace (c : ascii) : bool :=
  eqc c " " || eqc c "009" || eqc c "010" || eqc c "013".
Definition isDigit (c : ascii) : bool := between 48 57 c.
Definition isHex (c : ascii) : bool :=
  isDigit c || between 97 102 c || between 65 70 c.
Definition hexVal (c : ascii) : N :=
  (if isDigit c then code c - 48
   else if between 97 102 c then code c - 87
   else code c - 55)%N.

(** *** UTF-8 *)

(** U+FFFD, which Go substitutes for what is not valid UTF-8. *)
Definition replacement : list ascii := ["239"; "191"; "189"]%char.

(** [utf8.EncodeRune]. *)
Definition encodeRune (r : N) : list ascii :=
  (if r <? 128 then [byte r]
   else if r <? 2048 then [byte (192 + r / 64); byte (128 + r mod 64)]
   else if (55296 <=? r) && (r <=? 57343) then replacement
   else if r <? 65536 then
     [byte (224 + r / 4096); byte (128 + (r / 64) mod 64); byte (128 + r mod 64)]
   else if r <=? 1114111 then
     [byte (240 + r / 262144); byte (128 + (r / 4096) mod 64);
      byte (128 + (r / 64) mod 64); byte (128 + r mod 64)]
   else replacement)%N.

(** For a leading byte at least [0x80]: how many continuation bytes
    follow and the range the first of them must lie in (the acceptance
    table of [utf8.DecodeRune]). *)
Definition utf8Lead (c : ascii) : option (nat * N * N) :=
  (let b := code c in
   if (194 <=? b) && (b <=? 223) then Some (1%nat, 128, 191)
   else if b =? 224 then Some (2%nat, 160, 191)
   else if (225 <=? b) && (b <=? 236) then Some (2%nat, 128, 191)
   else if b =? 237 then Some (2%nat, 128, 159)
   else if (238 <=? b) && (b <=? 239) then Some (2%nat, 128, 191)
   else if b =? 240 then Some (3%nat, 144, 191)
   else if (241 <=? b) && (b <=? 243) then Some (3%nat, 128, 191)
   else if b =? 244 then Some (3%nat, 128, 143)
   else None)%N.

Definition isCont (c : ascii) : bool := between 128 191 c.

(** The number of bytes of the well-formed multi-byte sequence [c :: rest]
    starts with, [None] when there is none. *)
Definition utf8Width (c : ascii) (rest : list ascii) : option nat :=
  match utf8Lead c, rest with
  | Some (1%nat, lo, hi), c1 :: _ =>
      if between lo hi c1 then Some 2%nat else None
  | Some (2%nat, lo, hi), c1 :: c2 :: _ =>
      if between lo hi c1 && isCont c2 then Some 3%nat else None
  | Some (3%nat, lo, hi), c1 :: c2 :: c3 :: _ =>
      if between lo hi c1 && isCont c2 && isCont c3 then Some 4%nat else None
  | _, _ => None
  end.

(** Every byte is below [utf8.RuneSelf]. *)
Definition isASCII (bytes : list ascii) : bool :=
  forallb (fun c => (code c <? 128)%N) bytes.

(** [utf8.Valid]. *)
Fixpoint validUTF8 (bytes : list ascii) : bool :=
  match bytes with
  | [] => true
  | c :: rest =>
      if (code c <? 128)%N then validUTF8 rest
      else
        match utf8Width c rest, rest with
        | Some 2%nat, _ :: rest1 => validUTF8 rest1
        | Some 3%nat, _ :: _ :: rest2 => validUTF8 rest2
        | Some 4%nat, _ :: _ :: _ :: rest3 => validUTF8 rest3
        | _, _ => false
        end
  end.

(** [utf8.ValidString]. *)
Definition ValidString (s : string) : bool := validUTF8 (list_ascii_of_string s).

(** The bytes a reader gets back from a string [json.Marshal] wrote
    ([appendString]): the encoder copies what is valid UTF-8 and writes
    U+FFFD once for each byte at which [utf8.DecodeRuneInString] finds
    no well-formed sequence. *)
Fixpoint coerceUTF8 (bytes : list ascii) : list ascii :=
  match bytes with
  | [] => []
  | c :: rest =>
      if (code c <? 128)%N then c :: coerceUTF8 rest
      else
        match utf8Width c rest, rest with
        | Some 2%nat, c1 :: rest1 => c :: c1 :: coerceUTF8 rest1
        | Some 3%nat, c1 :: c2 :: rest2 => c :: c1 :: c2 :: coerceUTF8 rest2
        | Some 4%nat, c1 :: c2 :: c3 :: rest3 => c :: c1 :: c2 :: c3 :: coerceUTF8 rest3
        | _, _ => replacement ++ coerceUTF8 rest
        end
  end.

Definition marshalString (s : string) : string :=
  string_of_list_ascii (coerceUTF8 (list_ascii_of_string s)).

(** *** String literals: [unquote] *)

Definition escaped (c : ascii) : ascii :=
  if eqc c "b" then "008" else if eqc c "f" then "012"
  else if eqc c "n" then "010" else if eqc c "r" then "013"
  else if eqc c "t" then "009" else c.

Definition hex4 (h1 h2 h3 h4 : ascii) : N :=
  (hexVal h1 * 4096 + hexVal h2 * 256 + hexVal h3 * 16 + hexVal h4)%N.

Definition isSurrogate (r : N) : bool := ((55296 <=? r) && (r <? 57344))%N.

(** [utf16.DecodeRune]; [None] stands for U+FFFD. *)
Definition decodeSurrogates (r1 r2 : N) : option N :=
  (if (55296 <=? r1) && (r1 <? 56320) && (56320 <=? r2) && (r2 <? 57344)
   then Some ((r1 - 55296) * 1024 + (r2 - 56320) + 65536)
   else None)%N.

(** The contents of a string literal (between the quotes, already checked
    by the scanner) to the bytes of the Go string. *)
Fixpoint unquote (raw : list ascii) : list ascii :=
  match raw with
  | [] => []
  | c :: rest =>
      if eqc c "\" then
        match rest with
        | [] => []
        | e :: rest1 =>
            if eqc e "u" then
              match rest1 with
              | h1 :: h2 :: h3 :: h4 :: rest2 =>
                  let rr := hex4 h1 h2 h3 h4 in
                  if isSurrogate rr then
                    match rest2 with
                    | b :: u :: g1 :: g2 :: g3 :: g4 :: rest3 =>
                        if eqc b "\" && eqc u "u" then
                          match decodeSurrogates rr (hex4 g1 g2 g3 g4) with
                          | Some dec => encodeRune dec ++ unquote rest3
                          | None => replacement ++ unquote rest2
                          end
                        else replacement ++ unquote rest2
                    | _ => replacement ++ unquote rest2
                    end
                  else encodeRune rr ++ unquote rest2
              | _ => []
              end
            else escaped e :: unquote rest1
        end
      else if (code c <? 128)%N then c :: unquote rest
      else
        match utf8Width c rest, rest with
        | Some 2%nat, c1 :: rest1 => c :: c1 :: unquote rest1
        | Some 3%nat, c1 :: c2 :: rest2 => c :: c1 :: c2 :: unquote rest2
        | Some 4%nat, c1 :: c2 :: c3 :: rest3 => c :: c1 :: c2 :: c3 :: unquote rest3
        | _, _ => replacement ++ unquote rest
        end
  end.

(** *** The scanner: tokens *)

Inductive token :=
| TLBrace | TRBrace | TLBracket | TRBracket | TColon | TComma
| TString (s : string)
| TNumber (lit : string)
| TWord (v : json).

(** The states of the number grammar: an optional minus sign, then a
    zero or a non-zero digit followed by digits, then optionally a point
    and digits, then optionally an exponent mark, a sign and digits. *)
Inductive numState :=
| NMinus | NZero | NInt | NDot | NFrac | NExp | NExpSign | NExpInt.

Definition isExp (c : ascii) : bool := eqc c "e" || eqc c "E".

Definition numStep (st : numState) (c : ascii) : option numState :=
  match st with
  | NMinus =>
      if eqc c "0" then Some NZero else if isDigit c then Some NInt else None
  | NZero =>
      if eqc c "." then Some NDot else if isExp c then Some NExp else None
  | NInt =>
      if isDigit c then Some NInt else if eqc c "." then Some NDot
      else if isExp c then Some NExp else None
  | NDot => if isDigit c then Some NFrac else None
  | NFrac =>
      if isDigit c then Some NFrac else if isExp c then Some NExp else None
  | NExp =>
      if eqc c "+" || eqc c "-" then Some NExpSign
      else if isDigit c then Some NExpInt else None
  | NExpSign => if isDigit c then Some NExpInt else None
  | NExpInt => if isDigit c then Some NExpInt else None
  end.

Definition numAccepting (st : numState) : bool :=
  match st with
  | NZero | NInt | NFrac | NExpInt => true
  | _ => false
  end.

(** What the scanner is in the middle of; the accumulated bytes are kept
    in reverse. *)
Inductive lexMode :=
| LDefault
| LStr (raw : list ascii)
| LEsc (raw : list ascii)
| LHex (raw : list ascii) (missing : nat)
| LNum (st : numState) (lit : list ascii)
| LWord (rest : list ascii) (v : json).

Definition text (rev_bytes : list ascii) : string :=
  string_of_list_ascii (rev rev_bytes).

Definition lexDefault (toks : list token) (c : ascii) : option (lexMode * list token) :=
  if isSpace c then Some (LDefault, toks)
  else if eqc c "{" then Some (LDefault, TLBrace :: toks)
  else if eqc c "}" then Some (LDefault, TRBrace :: toks)
  else if eqc c "[" then Some (LDefault, TLBracket :: toks)
  else if eqc c "]" then Some (LDefault, TRBracket :: toks)
  else if eqc c ":" then Some (LDefault, TColon :: toks)
  else if eqc c "," then Some (LDefault, TComma :: toks)
  else if eqc c "034" then Some (LStr [], toks)
  else if eqc c "-" then Some (LNum NMinus [c], toks)
  else if eqc c "0" then Some (LNum NZero [c], toks)
  else if isDigit c then Some (LNum NInt [c], toks)
  else if eqc c "t" then Some (LWord ["r"; "u"; "e"]%char (JBool true), toks)
  else if eqc c "f" then Some (LWord ["a"; "l"; "s"; "e"]%char (JBool false), toks)
  else if eqc c "n" then Some (LWord ["u"; "l"; "l"]%char JNull, toks)
  else None.

Definition lexStep (st : lexMode * list token) (c : ascii) : option (lexMode * list token) :=
  let '(mode, toks) := st in
  match mode with
  | LDefault => lexDefault toks c
  | LStr raw =>
      if eqc c "034" then
        Some (LDefault, TString (string_of_list_ascii (unquote (rev raw))) :: toks)
      else if eqc c "\" then Some (LEsc (c :: raw), toks)
      else if (code c <? 32)%N then None
      else Some (LStr (c :: raw), toks)
  | LEsc raw =>
      if eqc c "u" then Some (LHex (c :: raw) 4%nat, toks)
      else if eqc c "034" || eqc c "\" || eqc c "/" || eqc c "b" || eqc c "f"
              || eqc c "n" || eqc c "r" || eqc c "t"
      then Some (LStr (c :: raw), toks)
      else None
  | LHex raw missing =>
      if isHex c then
        match missing with
        | S (S k) => Some (LHex (c :: raw) (S k), toks)
        | _ => Some (LStr (c :: raw), toks)
        end
      else None
  | LNum ns lit =>
      match numStep ns c with
      | Some ns' => Some (LNum ns' (c :: lit), toks)
      | None =>
          if numAccepting ns then lexDefault (TNumber (text lit) :: toks) c
          else None
      end
  | LWord rest v =>
      match rest with
      | [d] => if eqc c d then Some (LDefault, TWord v :: toks) else None
      | d :: rest' => if eqc c d then Some (LWord rest' v, toks) else None
      | [] => None
      end
  end.

Definition lexEnd (st : lexMode * list token) : option (list token) :=
  let '(mode, toks) := st in
  match mode with
  | LDefault => Some (rev toks)
  | LNum ns lit =>
      if numAccepting ns then Some (rev (TNumber (text lit) :: toks)) else None
  | _ => None
  end.

Fixpoint lexFrom (st : lexMode * list token) (input : list ascii) : option (list token) :=
  match input with
  | [] => lexEnd st
  | c :: rest =>
      match lexStep st c with
      | Some st' => lexFrom st' rest
      | None => None
      end
  end.

Definition tokenize (input : string) : option (list token) :=
  lexFrom (LDefault, []) (list_ascii_of_string input).

(** *** The parser *)

(** An array or object under construction, its parts in reverse; an
    object frame holds the key whose value is being read. *)
Inductive frame :=
| FArr (elems : list json)
| FObj (members : list (string * json)) (key : option string).

Inductive expect :=
| EValue          (* a value *)
| EValueOrEnd     (* just after an opening bracket *)
| EKey            (* a key, after a comma *)
| EKeyOrEnd       (* just after an opening brace *)
| EColon
| ECommaOrEnd     (* after a value inside an array or object *)
| EDone (v : json).

(** The decoder refuses documents nested deeper than this. *)
Definition maxNestingDepth : N := 10000.

(** A complete value [v] goes into the frame on top of the stack. *)
Definition reduce (v : json) (stack : list frame) : option (expect * list frame) :=
  match stack with
  | [] => Some (EDone v, [])
  | FArr elems :: up => Some (ECommaOrEnd, FArr (v :: elems) :: up)
  | FObj members (Some k) :: up => Some (ECommaOrEnd, FObj ((k, v) :: members) None :: up)
  | FObj _ None :: _ => None
  end.

Definition push (f : frame) (e : expect) (stack : list frame) : option (expect * list frame) :=
  if (maxNestingDepth <=? N.of_nat (length stack))%N then None
  else Some (e, f :: stack).

Definition parseValue (t : token) (stack : list frame) : option (expect * list frame) :=
  match t with
  | TString s => reduce (JString s) stack
  | TNumber lit => reduce (JNumber lit) stack
  | TWord v => reduce v stack
  | TLBracket => push (FArr []) EValueOrEnd stack
  | TLBrace => push (FObj [] None) EKeyOrEnd stack
  | _ => None
  end.

Definition parseKey (t : token) (stack : list frame) : option (expect * list frame) :=
  match t, stack with
  | TString k, FObj members None :: up => Some (EColon, FObj members (Some k) :: up)
  | _, _ => None
  end.

Definition parseClose (t : token) (stack : list frame) : option (expect * list frame) :=
  match t, stack with
  | TRBracket, FArr elems :: up => reduce (JArray (rev elems)) up
  | TRBrace, FObj members None :: up => reduce (JObject (rev members)) up
  | _, _ => None
  end.

Definition parseStep (st : expect * list frame) (t : token) : option (expect * list frame) :=
  let '(e, stack) := st in
  match e with
  | EValue => parseValue t stack
  | EValueOrEnd =>
      match t with TRBracket => parseClose t stack | _ => parseValue t stack end
  | EKey => parseKey t stack
  | EKeyOrEnd =>
      match t with TRBrace => parseClose t stack | _ => parseKey t stack end
  | EColon => match t with TColon => Some (EValue, stack) | _ => None end
  | ECommaOrEnd =>
      match t, stack with
      | TComma, FArr _ :: _ => Some (EValue, stack)
      | TComma, FObj _ None :: _ => Some (EKey, stack)
      | _, _ => parseClose t stack
      end
  | EDone _ => None
  end.

Fixpoint parseFrom (st : expect * list frame) (toks : list token) : option json :=
  match toks with
  | [] => match st with (EDone v, _) => Some v | _ => None end
  | t :: rest =>
      match parseStep st t with
      | Some st' => parseFrom st' rest
      | None => None
      end
  end.

(** A JSON text to its value; [None] is a syntax error. *)
Definition parse (input : string) : option json :=
  match tokenize input with
  | Some toks => parseFrom (EValue, []) toks
  | None => None
  end.

(** A JSON text written with apostrophes for the double quotes. *)
Definition quoted (s : string) : string :=
  string_of_list_ascii
    (map (fun c => if eqc c "'" then "034"%char else c) (list_ascii_of_string s)).

(** *** [json.Unmarshal] into the program's types *)

(** A key of the document selects a struct field when the two are equal
    up to Unicode simple case folding.  Besides the ASCII letters only
    U+017F (long s) and U+212A (Kelvin sign) fold to an ASCII letter;
    every other rune folds to a rune that is not ASCII, which this
    function leaves as it is: the field names are ASCII. *)
Fixpoint foldName (name : list ascii) : list ascii :=
  match name with
  | [] => []
  | c :: rest =>
      match rest with
      | c1 :: rest1 =>
          if eqc c "197" && eqc c1 "191" then "S"%char :: foldName rest1
          else
            match rest1 with
            | c2 :: rest2 =>
                if eqc c "226" && eqc c1 "132" && eqc c2 "170"
                then "K"%char :: foldName rest2
                else (if between 97 122 c then byte (code c - 32) else c) :: foldName rest
            | [] => (if between 97 122 c then byte (code c - 32) else c) :: foldName rest
            end
      | [] => [if between 97 122 c then byte (code c - 32) else c]
      end
  end.

Definition selects (key field : string) : bool :=
  bool_decide (foldName (list_ascii_of_string key) = foldName (list_ascii_of_string field)).

(** Decoding is in the option monad: [None] is a non-nil error.  (Go goes
    on decoding after a type mismatch and reports the first one at the
    end; the program looks at no value whose decoding reported an
    error.)  Each function takes the current value of the variable
    decoded into, which a JSON [null] leaves as it is. *)

Definition intoString (cur : string) (v : json) : option string :=
  match v with
  | JString s => Some s
  | JNull => Some cur
  | _ => None
  end.

Fixpoint digitsValue (acc : Z) (ds : list ascii) : option Z :=
  match ds with
  | [] => Some acc
  | d :: rest =>
      if isDigit d then digitsValue (10 * acc + Z.of_N (code d - 48)) rest
      else None
  end.

(** [strconv.ParseInt(lit, 10, 64)] on a number literal: an integer
    literal within the range of a 64-bit [int]. *)
Definition parseInt (lit : string) : option Z :=
  let within (n : Z) := if (- 2 ^ 63 <=? n) && (n <? 2 ^ 63) then Some n else None in
  match list_ascii_of_string lit with
  | [] => None
  | c :: rest =>
      if eqc c "-" then
        match rest with
        | [] => None
        | _ => n ← digitsValue 0 rest; within (- n)
        end
      else n ← digitsValue 0 (c :: rest); within n
  end.

Definition intoInt (cur : Z) (v : json) : option Z :=
  match v with
  | JNumber lit => parseInt lit
  | JNull => Some cur
  | _ => None
  end.

(** A struct: the members of an object are decoded in order into the
    fields they select, a later duplicate on top of an earlier one; keys
    that select no field are skipped. *)
Fixpoint intoFields {A : Type} (field : A → string → json → option A)
    (cur : A) (members : list (string * json)) : option A :=
  match members with
  | [] => Some cur
  | (k, v) :: rest => next ← field cur k v; intoFields field next rest
  end.

Definition intoStruct {A : Type} (field : A → string → json → option A)
    (cur : A) (v : json) : option A :=
  match v with
  | JObject members => intoFields field cur members
  | JNull => Some cur
  | _ => None
  end.

(** A slice variable: its elements, and the elements its backing array
    still holds beyond its length.  An array that is not empty, decoded
    into a slice that was set before, reuses the stored elements, in and
    beyond the old length, and decodes on top of them; an empty array
    replaces the slice by a new empty one ([reflect.MakeSlice] of length
    and capacity zero), so that nothing stored is left. *)
Record slice (A : Type) := Slice { elements : list A; spare : list A }.
Arguments Slice {A} _ _.
Arguments elements {A} _.
Arguments spare {A} _.

Definition nilSlice {A : Type} : slice A := Slice [] [].

Fixpoint intoElems {A : Type} (elem : A → json → option A) (zero : A)
    (backing : list A) (vs : list json) : option (list A) :=
  match vs with
  | [] => Some []
  | v :: rest =>
      e ← elem (hd zero backing) v;
      es ← intoElems elem zero (tl backing) rest;
      Some (e :: es)
  end.

Definition intoSlice {A : Type} (elem : A → json → option A) (zero : A)
    (cur : slice A) (v : json) : option (slice A) :=
  match v with
  | JArray [] => Some (Slice [] [])
  | JArray vs =>
      let backing := elements cur ++ spare cur in
      es ← intoElems elem zero backing vs;
      Some (Slice es (drop (length vs) backing))
  | JNull => Some nilSlice
  | _ => None
  end.

End JSON.

(** ** Requests and responses *)

Import JSON.

Record ImageSizeStruct := { SizeWidth : Z; SizeHeight : Z }.

(** The field [ImageSize interface{}] of a request: nil, a string or an
    [ImageSize] struct. *)
Inductive ImageSizeValue :=
| SizeNil
| SizeString (s : string)
| SizeStruct (d : ImageSizeStruct).

Record ImageRequest := {
  Prompt : string;
  ImageSize : ImageSizeValue;
  AspectRatio : string;
  OutputFormat : string;
  ImageURLs : list string;
  Seed : option Z;                (* [*int]: [None] is the nil pointer *)
  EnableSafetyChecker : bool
}.

Record ImageOutput := {
  URL : string;
  Width : Z;
  Height : Z;
  ContentType : string
}.

Record ImageResponse := {
  Images : list ImageOutput;
  ResponseSeed : Z
}.

(** [json.Marshal] of a request, up to the rendering of the values as
    text: the members in the order of the struct's fields, a field tagged
    [omitempty] left out when it is nil, empty or of length zero, and
    every string coerced to valid UTF-8. *)
Definition marshalImageSize (v : ImageSizeValue) : list (string * json) :=
  match v with
  | SizeNil => []
  | SizeString s => [("image_size", JString (marshalString s))]
  | SizeStruct d =>
      [("image_size",
        JObject [("width", JNumber (pretty (SizeWidth d)));
                 ("height", JNumber (pretty (SizeHeight d)))])]
  end.

Definition omitEmptyString (key value : string) : list (string * json) :=
  if String.eqb value "" then [] else [(key, JString (marshalString value))].

Definition marshalMembers (req : ImageRequest) : list (string * json) :=
  [("prompt", JString (marshalString (Prompt req)))]
  ++ marshalImageSize (ImageSize req)
  ++ omitEmptyString "aspect_ratio" (AspectRatio req)
  ++ omitEmptyString "output_format" (OutputFormat req)
  ++ match ImageURLs req with
     | [] => []
     | urls => [("image_urls", JArray ((λ url, JString (marshalString url)) <$> urls))]
     end
  ++ match Seed req with
     | None => []
     | Some n => [("seed", JNumber (pretty n))]
     end
  ++ [("enable_safety_checker", JBool (EnableSafetyChecker req))].

Definition marshal (req : ImageRequest) : json := JObject (marshalMembers req).

(** The member [key] of a marshalled object, if it has one. *)
Definition member (key : string) (v : json) : option json :=
  match v with
  | JObject members => snd <$> List.find (fun kv => String.eqb kv.1 key) members
  | _ => None
  end.

(** The keys of a marshalled object, in order. *)
Definition keys (v : json) : list string :=
  match v with
  | JObject members => members.*1
  | _ => []
  end.

(** [json.Unmarshal] into the struct [detailedErr] of [callFALAPI]. *)
Record DetailEntry := { Msg : string; Type_ : string }.

Definition detailEntryField (cur : DetailEntry) (key : string) (v : json) : option DetailEntry :=
  if selects key "msg" then
    s ← intoString (Msg cur) v; Some {| Msg := s; Type_ := Type_ cur |}
  else if selects key "type" then
    s ← intoString (Type_ cur) v; Some {| Msg := Msg cur; Type_ := s |}
  else Some cur.

Definition zeroDetailEntry : DetailEntry := {| Msg := ""; Type_ := "" |}.

Definition detailedErrField (cur : slice DetailEntry) (key : string) (v : json)
    : option (slice DetailEntry) :=
  if selects key "detail" then
    intoSlice (intoStruct detailEntryField) zeroDetailEntry cur v
  else Some cur.

Definition unmarshalDetailedErr (body : string) : option (list DetailEntry) :=
  v ← parse body;
  elements <$> intoStruct detailedErrField nilSlice v.

(** [json.Unmarshal] into the struct [simpleErr] of [callFALAPI]. *)
Definition simpleErrField (cur : string) (key : string) (v : json) : option string :=
  if selects key "detail" then intoString cur v else Some cur.

Definition unmarshalSimpleErr (body : string) : option string :=
  v ← parse body;
  intoStruct simpleErrField "" v.

(** [json.Unmarshal] into an [ImageResponse]. *)
Definition imageOutputField (cur : ImageOutput) (key : string) (v : json) : option ImageOutput :=
  if selects key "url" then
    s ← intoString (URL cur) v;
    Some {| URL := s; Width := Width cur; Height := Height cur; ContentType := ContentType cur |}
  else if selects key "width" then
    n ← intoInt (Width cur) v;
    Some {| URL := URL cur; Width := n; Height := Height cur; ContentType := ContentType cur |}
  else if selects key "height" then
    n ← intoInt (Height cur) v;
    Some {| URL := URL cur; Width := Width cur; Height := n; ContentType := ContentType cur |}
  else if selects key "content_type" then
    s ← intoString (ContentType cur) v;
    Some {| URL := URL cur; Width := Width cur; Height := Height cur; ContentType := s |}
  else Some cur.

Definition zeroImageOutput : ImageOutput :=
  {| URL := ""; Width := 0; Height := 0; ContentType := "" |}.

Definition imageResponseField (cur : slice ImageOutput * Z) (key : string) (v : json)
    : option (slice ImageOutput * Z) :=
  if selects key "images" then
    imgs ← intoSlice (intoStruct imageOutputField) zeroImageOutput cur.1 v;
    Some (imgs, cur.2)
  else if selects key "seed" then
    n ← intoInt cur.2 v; Some (cur.1, n)
  else Some cur.

Definition unmarshalImageResponse (body : string) : option ImageResponse :=
  v ← parse body;
  r ← intoStruct imageResponseField (nilSlice, 0) v;
  Some {| Images := elements r.1; ResponseSeed := r.2 |}.

(** ** Base64: [base64.StdEncoding.EncodeToString] *)

Module Base64.

(** The alphabet [encodeStd]. *)
Definition encodeStd : list ascii :=
  list_ascii_of_string "ABCDEFGHIJKLMNOPQRSTUVWXYZabcdefghijklmnopqrstuvwxyz0123456789+/".

(** [enc.encode[val&0x3F]]. *)
Definition digit (val : N) : ascii := nth (N.to_nat (val mod 64)) encodeStd "="%char.

(** [Encode]: three bytes give four digits; one or two bytes left at the
    end give two or three digits and the padding. *)
Fixpoint Encode (src : list ascii) : list ascii :=
  match src with
  | [] => []
  | [a] =>
      let val := (code a * 65536)%N in
      [digit (val / 262144); digit (val / 4096); "="%char; "="%char]
  | [a; b] =>
      let val := (code a * 65536 + code b * 256)%N in
      [digit (val / 262144); digit (val / 4096); digit (val / 64); "="%char]
  | a :: b :: c :: rest =>
      let val := (code a * 65536 + code b * 256 + code c)%N in
      [digit (val / 262144); digit (val / 4096); digit (val / 64); digit val]
      ++ Encode rest
  end.

Definition EncodeToString (src : string) : string :=
  string_of_list_ascii (Encode (list_ascii_of_string src)).

End Base64.

(** ** The environment of a run *)

(** The result of a call that returns a value and an [error]. *)
Inductive result (A : Type) :=
| Ok (a : A)
| Err (err : string).
Arguments Ok {A} _.
Arguments Err {A} _.

(** What an invocation reads from the operating system and the network.
    A file's contents and a response body are byte strings. *)
Record Env := {
  (** The key [getAPIKey] finds in the environment or in one of the two
      [.env] files; [None] when it finds none and exits. *)
  falKey : option string;
  (** [os.ReadFile]. *)
  osReadFile : string → result string;
  (** [os.Open] followed by [image.DecodeConfig]: width and height. *)
  imageDecodeConfig : string → result (Z * Z);
  (** [strings.ToLower] on a string that is not ASCII only. *)
  unicodeToLower : string → string;
  (** [client.Do] on the POST request with the given URL, key and
      payload: a transport error, or the status code and what
      [io.ReadAll] gives for the body. *)
  httpDo : string → string → json → result (Z * result string);
  (** The text of the error of [json.Unmarshal] on a body it rejects. *)
  unmarshalErrorText : string → string;
  (** [http.Get] of the URL copied into the file: [downloadImage]; the
      error is that of [http.Get] (which it also returns, without
      sending anything, for a URL it cannot use), of [os.Create] or of
      [io.Copy]. *)
  httpGetToFile : string → string → option string;
  (** [getDefaultOutputPath] (home directory and clock). *)
  defaultOutputPath : string → string;
  (** [os.Stat] reports a directory. *)
  isDir : string → bool;
  (** The directory joined with the name [generated_<unix time>.<format>]. *)
  generatedIn : string → string → string
}.

(** The command line flags, which the program keeps in global variables. *)
Record Flags := {
  model : string;
  size : string;
  format : string;
  output : string;
  seed : Z;
  inputImages : list string
}.

(** ** Effects: network traffic and errors *)

Inductive Event :=
| HttpPost (url apiKey : string) (payload : json)
| HttpGet (url : string).

(** A computation that sends requests and ends in an error or a value. *)
Record Eff (E A : Type) := MkEff { trace : list Event; outcome : E + A }.
Arguments MkEff {E A} _ _.
Arguments trace {E A} _.
Arguments outcome {E A} _.

Definition ret {E A : Type} (a : A) : Eff E A := MkEff [] (inr a).
Definition throw {E A : Type} (e : E) : Eff E A := MkEff [] (inl e).
Definition emit {E : Type} (ev : Event) : Eff E unit := MkEff [ev] (inr tt).

Definition bind {E A B : Type} (m : Eff E A) (k : A → Eff E B) : Eff E B :=
  match outcome m with
  | inl e => MkEff (trace m) (inl e)
  | inr a => MkEff (trace m ++ trace (k a)) (outcome (k a))
  end.

(** An error of the callee becomes an error of the caller. *)
Definition mapErr {E E' A : Type} (f : E → E') (m : Eff E A) : Eff E' A :=
  MkEff (trace m) match outcome m with inl e => inl (f e) | inr a => inr a end.

Declare Scope eff_scope.
Delimit Scope eff_scope with eff.
Notation "x <- m ;; k" := (bind m (fun x => k))
  (at level 100, m at next level, right associativity) : eff_scope.
Notation "m ;;; k" := (bind m (fun _ => k))
  (at level 100, right associativity) : eff_scope.

(** The errors [callFALAPI] returns. *)
Inductive CallError :=
| RequestFailed (err : string)
| ReadFailed (err : string)
| APIError (status : Z) (message : string)
| ParseFailed (err : string).

(** The text of the error, as [fmt.Errorf] builds it. *)
Definition callErrorText (e : CallError) : string :=
  match e with
  | RequestFailed err => "API request failed: " +:+ err
  | ReadFailed err => "failed to read response: " +:+ err
  | APIError status message =>
      "API error (" +:+ pretty status +:+ "): " +:+ message
  | ParseFailed err => "failed to parse response: " +:+ err
  end.

(** The errors on which [runGenerate] (or [getAPIKey]) prints to the
    error stream and exits with code 1. *)
Inductive FatalError :=
| NoAPIKey
| UnknownModel (name : string)
| NoEditSupport (name : string)
| ImageReadError (ordinal : Z) (path err : string)
| CallFailed (e : CallError)
| NoImagesReturned
| SaveFailed (err : string).

Definition newline : string := String "010" "".

(** What the program prints to the error stream before it exits. *)
Definition stderrText (e : FatalError) : string :=
  match e with
  | NoAPIKey =>
      "Error: FAL_KEY not found" +:+ newline
      +:+ "Set FAL_KEY environment variable or create ~/.gen-cli/.env" +:+ newline
  | UnknownModel name =>
      "Error: unknown model '" +:+ name
      +:+ "'. Use 'gen models' to see available options." +:+ newline
  | NoEditSupport name =>
      "Error: model '" +:+ name +:+ "' does not support editing." +:+ newline
  | ImageReadError ordinal path err =>
      "Error reading image " +:+ pretty ordinal +:+ " (" +:+ path +:+ "): " +:+ err
      +:+ newline
  | CallFailed e => "Error: " +:+ callErrorText e +:+ newline
  | NoImagesReturned => "Error: No images returned" +:+ newline
  | SaveFailed err => "Error saving image: " +:+ err +:+ newline
  end.

(** How a run that did not exit with code 1 ended. *)
Inductive Done :=
| HelpShown
| Saved (outPath : string) (response : ImageResponse).

(** ** The program *)

Definition falBaseURL : string := "https://fal.run".

(** [filepath.Ext] with the separator of Unix: the suffix from the last
    dot of the last element of the path, empty when it has no dot. *)
Fixpoint extFrom (reversed suffix : list ascii) : list ascii :=
  match reversed with
  | [] => []
  | c :: before =>
      if eqc c "/" then []
      else if eqc c "." then c :: suffix
      else extFrom before (c :: suffix)
  end.

Definition Ext (path : string) : string :=
  string_of_list_ascii (extFrom (rev (list_ascii_of_string path)) []).

Definition asciiLower (c : ascii) : ascii :=
  if between 65 90 c then byte (code c + 32) else c.

(** [strings.ToLower]: bytewise on an ASCII string, by the Unicode tables
    otherwise. *)
Definition ToLower (env : Env) (s : string) : string :=
  let bytes := list_ascii_of_string s in
  if forallb (fun c => (code c <? 128)%N) bytes
  then string_of_list_ascii (asciiLower <$> bytes)
  else unicodeToLower env s.

(** The [switch] of [imageToDataURI]. *)
Definition mimeTypeOf (ext : string) : string :=
  if String.eqb ext ".png" then "image/png"
  else if String.eqb ext ".jpg" || String.eqb ext ".jpeg" then "image/jpeg"
  else if String.eqb ext ".webp" then "image/webp"
  else if String.eqb ext ".gif" then "image/gif"
  else "application/octet-stream".

(** [fmt.Sprintf("data:%s;base64,%s", mimeType, encoded)]. *)
Definition dataURI (mimeType encoded : string) : string :=
  "data:" +:+ mimeType +:+ ";base64," +:+ encoded.

Definition imageToDataURI (env : Env) (imagePath : string) : result string :=
  match osReadFile env imagePath with
  | Err err => Err err
  | Ok data =>
      let ext := ToLower env (Ext imagePath) in
      let mimeType := mimeTypeOf ext in
      let encoded := Base64.EncodeToString data in
      Ok (dataURI mimeType encoded)
  end.

(** [getImageDimensions]: width, height and error. *)
Definition getImageDimensions (env : Env) (imagePath : string) : Z * Z * option string :=
  match imageDecodeConfig env imagePath with
  | Err err => (0, 0, Some err)
  | Ok (width, height) => (width, height, None)
  end.

Definition getAPIKey (env : Env) : Eff FatalError string :=
  match falKey env with
  | Some apiKey => ret apiKey
  | None => throw NoAPIKey
  end.

(** The handling of a status other than 200 in [callFALAPI]. *)
Definition apiErrorMessage (body : string) : string :=
  match unmarshalDetailedErr body with
  | Some (first :: _) => Msg first
  | _ =>
      match unmarshalSimpleErr body with
      | Some detail => if String.eqb detail "" then body else detail
      | None => body
      end
  end.

(** [callFALAPI].  Marshalling the request and building the HTTP request
    cannot fail for the requests and URLs of this program; the progress
    indicator only writes to the terminal. *)
Definition callFALAPI (env : Env) (apiKey modelPath : string) (req : ImageRequest)
    : Eff CallError ImageResponse :=
  (let url := falBaseURL +:+ "/" +:+ modelPath in
   let jsonData := marshal req in
   emit (HttpPost url apiKey jsonData) ;;;
   match httpDo env url apiKey jsonData with
   | Err err => throw (RequestFailed err)
   | Ok (_, Err err) => throw (ReadFailed err)
   | Ok (statusCode, Ok body) =>
       if negb (statusCode =? 200) then
         throw (APIError statusCode (apiErrorMessage body))
       else
         match unmarshalImageResponse body with
         | None => throw (ParseFailed (unmarshalErrorText env body))
         | Some imgResp => ret imgResp
         end
   end)%eff.

Definition downloadImage (env : Env) (url outputPath : string) : Eff FatalError unit :=
  (emit (HttpGet url) ;;;
   match httpGetToFile env url outputPath with
   | Some err => throw (SaveFailed err)
   | None => ret tt
   end)%eff.

(** [ImageRequest{Prompt: prompt, OutputFormat: format}]. *)
Definition newRequest (prompt format : string) : ImageRequest :=
  {| Prompt := prompt; ImageSize := SizeNil; AspectRatio := "";
     OutputFormat := format; ImageURLs := [];
     Seed := None; EnableSafetyChecker := false |}.

(** The part of [runGenerate] under "Determine image size/aspect ratio":
    the value of [sizeValue], empty when no directive is set. *)
Definition sizeValueFor (env : Env) (entries : list (string * string))
    (info : ModelInfo) (size : string) (inputImages : list string) : string :=
  let isEditMode := (0 <? length inputImages)%nat in
  if negb (String.eqb size "") && negb (String.eqb size "auto") then size
  else if isEditMode && SupportsAutoImgSize info then "auto"
  else if isEditMode && (0 <? length inputImages)%nat then
    match inputImages with
    | first :: _ =>
        match getImageDimensions env first with
        | (width, height, None) => getClosestRatioIn entries width height
        | (_, _, Some _) => ""
        end
    | [] => ""
    end
  else if negb isEditMode then "4:3"
  else "".

(** The part under "Set the appropriate size parameter based on model". *)
Definition setSizeParam (info : ModelInfo) (sizeValue : string) (req : ImageRequest)
    : ImageRequest :=
  if String.eqb (SizeParamName info) "aspect_ratio" then
    if negb (String.eqb sizeValue "") then
      {| Prompt := Prompt req; ImageSize := ImageSize req; AspectRatio := sizeValue;
         OutputFormat := OutputFormat req; ImageURLs := ImageURLs req;
         Seed := Seed req; EnableSafetyChecker := EnableSafetyChecker req |}
    else req
  else
    if negb (String.eqb sizeValue "") && negb (String.eqb sizeValue "auto") then
      {| Prompt := Prompt req; ImageSize := SizeString (parseSize sizeValue);
         AspectRatio := AspectRatio req;
         OutputFormat := OutputFormat req; ImageURLs := ImageURLs req;
         Seed := Seed req; EnableSafetyChecker := EnableSafetyChecker req |}
    else if String.eqb sizeValue "auto" then
      {| Prompt := Prompt req; ImageSize := SizeString "auto";
         AspectRatio := AspectRatio req;
         OutputFormat := OutputFormat req; ImageURLs := ImageURLs req;
         Seed := Seed req; EnableSafetyChecker := EnableSafetyChecker req |}
    else req.

Definition setSeed (seed : Z) (req : ImageRequest) : ImageRequest :=
  if 0 <=? seed then
    {| Prompt := Prompt req; ImageSize := ImageSize req; AspectRatio := AspectRatio req;
       OutputFormat := OutputFormat req; ImageURLs := ImageURLs req;
       Seed := Some seed; EnableSafetyChecker := EnableSafetyChecker req |}
  else req.

(** The loop over [inputImages]; [i] is the index of the head of
    [paths], [imageURLs] the slice appended to. *)
Fixpoint readImages (env : Env) (i : Z) (paths : list string) (imageURLs : list string)
    : Eff FatalError (list string) :=
  match paths with
  | [] => ret imageURLs
  | imgPath :: rest =>
      match imageToDataURI env imgPath with
      | Err err => throw (ImageReadError (i + 1) imgPath err)
      | Ok dataURI => readImages env (i + 1) rest (imageURLs ++ [dataURI])
      end
  end.

Definition setImageURLs (imageURLs : list string) (req : ImageRequest) : ImageRequest :=
  {| Prompt := Prompt req; ImageSize := ImageSize req; AspectRatio := AspectRatio req;
     OutputFormat := OutputFormat req; ImageURLs := imageURLs;
     Seed := Seed req; EnableSafetyChecker := EnableSafetyChecker req |}.

(** The end of [runGenerate], from the check of [len(response.Images)]:
    the first image is downloaded to the output path. *)
Definition saveFirstImage (env : Env) (flags : Flags) (response : ImageResponse)
    : Eff FatalError Done :=
  match Images response with
  | [] => throw NoImagesReturned
  | first :: _ =>
      let outPath :=
        if String.eqb (output flags) "" then defaultOutputPath env (format flags)
        else if isDir env (output flags)
             then generatedIn env (output flags) (format flags)
             else output flags in
      (downloadImage env (URL first) outPath ;;;
       ret (Saved outPath response))%eff
  end.

(** [runGenerate], with the map [ratioToPreset] iterated in the order
    [entries]. *)
Definition runGenerateIn (env : Env) (entries : list (string * string))
    (flags : Flags) (args : list string) : Eff FatalError Done :=
  match args with
  | [] => ret HelpShown
  | prompt :: _ =>
      (apiKey <- getAPIKey env ;;
       let resolvedModel := resolveModel (model flags) in
       info <- match models !! resolvedModel with
               | Some info => ret info
               | None => throw (UnknownModel (model flags))
               end ;;
       let isEditMode := (0 <? length (inputImages flags))%nat in
       modelPath <- (if isEditMode then
                       if String.eqb (EditPath info) ""
                       then throw (NoEditSupport (model flags))
                       else ret (EditPath info)
                     else ret (GenPath info)) ;;
       let sizeValue := sizeValueFor env entries info (size flags) (inputImages flags) in
       let req := newRequest prompt (format flags) in
       let req := setSizeParam info sizeValue req in
       let req := setSeed (seed flags) req in
       req <- (if isEditMode then
                 imageURLs <- readImages env 0 (inputImages flags) [] ;;
                 ret (setImageURLs imageURLs req)
               else ret req) ;;
       response <- mapErr CallFailed (callFALAPI env apiKey modelPath req) ;;
       saveFirstImage env flags response)%eff
  end.

Definition runGenerate (env : Env) (flags : Flags) (args : list string) : Eff FatalError Done :=
  runGenerateIn env (map_to_list ratioToPreset) flags args.

(** The request a run builds from a resolved model and the data URIs. *)
Definition requestOf (env : Env) (entries : list (string * string)) (flags : Flags)
    (prompt : string) (info : ModelInfo) (imageURLs : list string) : ImageRequest :=
  setImageURLs imageURLs
    (setSeed (seed flags)
       (setSizeParam info
          (sizeValueFor env entries info (size flags) (inputImages flags))
          (newRequest prompt (format flags)))).

(** The exit code of the process. *)
Definition exitCode {A : Type} (run : Eff FatalError A) : Z :=
  match outcome run with
  | inl _ => 1
  | inr _ => 0
  end.

(** The requests the run posted to the API. *)
Definition posted {E A : Type} (run : Eff E A) : list (string * json) :=
  omap (fun ev => match ev with
                  | HttpPost url _ payload => Some (url, payload)
                  | HttpGet _ => None
                  end) (trace run).

(** ** A sample environment *)

(** One readable PNG of the given dimensions, an API that answers
    every request with [status] and [body], and downloads that succeed
    for the URLs that name the scheme [http] or [https]. *)
Definition sampleEnvOf (dimensions : Z * Z) (status : Z) (body : string) : Env := {|
  falKey := Some "secret";
  osReadFile path :=
    if String.eqb path "photo.PNG" then Ok "bytes" else Err "no such file";
  imageDecodeConfig path :=
    if String.eqb path "photo.PNG" then Ok dimensions else Err "no such file";
  unicodeToLower s := s;
  httpDo _ _ _ := Ok (status, Ok body);
  unmarshalErrorText _ := "invalid JSON";
  httpGetToFile url _ :=
    if String.prefix "https://" url || String.prefix "http://" url then None
    else Some "unsupported protocol scheme";
  defaultOutputPath fmt := "out/generated_0." +:+ fmt;
  isDir _ := false;
  generatedIn dir fmt := dir +:+ "/generated_0." +:+ fmt
|}.

(** The same with a picture of 1920 by 1080 pixels. *)
Definition sampleEnv (status : Z) (body : string) : Env :=
  sampleEnvOf (1920, 1080) status body.

Definition sampleFlags : Flags := {|
  model := "z-turbo"; size := ""; format := "png"; output := "";
  seed := -1; inputImages := []
|}.

Definition oneImage : string :=
  quoted "{'images':[{'url':'https://x/y.png','width':1024,'height':768,'content_type':'image/png'}],'seed':7}".

Definition qwenInfo : ModelInfo :=
  Build_ModelInfo "fal-ai/qwen-image" "fal-ai/qwen-image-edit-plus" false "image_size".

Definition editFlags (modelName : string) (seedFlag : Z) (images : list string) : Flags := {|
  model := modelName; size := ""; format := "png"; output := "";
  seed := seedFlag; inputImages := images
|}.

(** ** The rest of the program *)

(** The values the flags have when they are not given on the command
    line ([main]). *)
Definition defaultFlags : Flags := {|
  model := "z-turbo"; size := ""; format := "png"; output := "";
  seed := -1; inputImages := []
|}.

(** The flags with another value of [--model]. *)
Definition withModel (name : string) (flags : Flags) : Flags := {|
  model := name; size := size flags; format := format flags; output := output flags;
  seed := seed flags; inputImages := inputImages flags
|}.

(** The flags with another value of [--size]. *)
Definition withSize (sizeFlag : string) (flags : Flags) : Flags := {|
  model := model flags; size := sizeFlag; format := format flags; output := output flags;
  seed := seed flags; inputImages := inputImages flags
|}.

(** *** The search for the API key *)

(** What [getAPIKey] and [getGenCLIDir] consult. *)
Record Host := {
  (** The variables of the process environment at the start. *)
  environ : gmap string string;
  (** The variables [godotenv] reads from a file; [None] when the file
      cannot be read or parsed. *)
  dotenvRead : string → option (gmap string string);
  (** [filepath.Join] of two elements. *)
  pathJoin : string → string → string
}.

(** [os.Getenv]: empty for a variable that is not set. *)
Definition Getenv (vars : gmap string string) (key : string) : string :=
  default "" (vars !! key).

(** [godotenv.Load(file)], its error ignored: the variables of the file
    that the environment does not have yet are set; one that is set,
    even to the empty string, stays. *)
Definition godotenvLoad (host : Host) (file : string) (vars : gmap string string)
    : gmap string string :=
  match dotenvRead host file with
  | Some fileVars => vars ∪ fileVars
  | None => vars
  end.

(** [os.UserHomeDir] on Unix: the variable [HOME], an error when it is
    empty or not set. *)
Definition UserHomeDir (vars : gmap string string) : option string :=
  if negb (String.eqb (Getenv vars "HOME") "") then Some (Getenv vars "HOME") else None.

(** [getGenCLIDir]; the directory is created on the way, which does not
    change what is returned. *)
Definition getGenCLIDir (host : Host) (vars : gmap string string) : string :=
  match UserHomeDir vars with
  | None => ""
  | Some home => pathJoin host home ".gen-cli"
  end.

(** [getAPIKey] on a host: the key, or [None] where the program prints
    that the key was not found and exits. *)
Definition getAPIKeyOn (host : Host) : option string :=
  let vars := environ host in
  if negb (String.eqb (Getenv vars "FAL_KEY") "") then Some (Getenv vars "FAL_KEY")
  else
    let vars := godotenvLoad host ".env" vars in
    if negb (String.eqb (Getenv vars "FAL_KEY") "") then Some (Getenv vars "FAL_KEY")
    else
      let genDir := getGenCLIDir host vars in
      if negb (String.eqb genDir "") then
        let envPath := pathJoin host genDir ".env" in
        let vars := godotenvLoad host envPath vars in
        if negb (String.eqb (Getenv vars "FAL_KEY") "") then Some (Getenv vars "FAL_KEY")
        else None
      else None.

(** *** The subcommand [models] *)

(** [utf8.RuneCountInString]: a byte that starts no well-formed sequence
    counts as one rune. *)
Fixpoint runeCount (bytes : list ascii) : nat :=
  match bytes with
  | [] => 0%nat
  | c :: rest =>
      match utf8Width c rest, rest with
      | Some 2%nat, _ :: rest1 => S (runeCount rest1)
      | Some 3%nat, _ :: _ :: rest2 => S (runeCount rest2)
      | Some 4%nat, _ :: _ :: _ :: rest3 => S (runeCount rest3)
      | _, _ => S (runeCount rest)
      end
  end.

(** The verb [%-17s]: spaces on the right up to a width counted in
    runes. *)
Definition padRight (width : nat) (s : string) : string :=
  s +:+ string_of_list_ascii
          (replicate (width - runeCount (list_ascii_of_string s)) " "%char).

(** [strings.Join]. *)
Fixpoint Join (elems : list string) (sep : string) : string :=
  match elems with
  | [] => ""
  | [e] => e
  | e :: rest => e +:+ sep +:+ Join rest sep
  end.

(** The aliases collected for a model, the map [modelAliases] iterated in
    the order [aliasEntries]. *)
Definition aliasesOf (aliasEntries : list (string * string)) (name : string) : list string :=
  (filter (λ entry, entry.2 = name) aliasEntries).*1.

(** The line printed for one model. *)
Definition modelLine (aliasEntries : list (string * string)) (name : string)
    (info : ModelInfo) : string :=
  let editSupport := if String.eqb (EditPath info) "" then "no edit" else "supports edit" in
  let aliases := aliasesOf aliasEntries name in
  let aliasStr :=
    match aliases with
    | [] => ""
    | _ => " (alias: " +:+ Join aliases ", " +:+ ")"
    end in
  "  " +:+ padRight 17 name +:+ "  " +:+ editSupport +:+ aliasStr +:+ newline.

(** The lines the subcommand prints for the models: [models] iterated in
    the order [modelEntries], and [modelAliases], for each model, in the
    order [aliasEntries] gives for it. *)
Definition modelLines (modelEntries : list (string * ModelInfo))
    (aliasEntries : string → list (string * string)) : list string :=
  (λ entry, modelLine (aliasEntries entry.1) entry.1 entry.2) <$> modelEntries.

Definition listModels (modelEntries : list (string * ModelInfo))
    (aliasEntries : string → list (string * string)) : list string :=
  ["Available Models:" +:+ newline; newline]
  ++ modelLines modelEntries aliasEntries
  ++ [newline;
      "Use -i flag to enable edit mode (e.g., gen " +:+ String "034" "prompt"
        +:+ String "034" " -i image.png)" +:+ newline].

(** * Properties *)

(** ** Sample values of the resolver *)

Example getClosestPreset_ex1 : getClosestPreset 1000 1000 = "square_hd".
Proof. vm_compute. reflexivity. Qed.
Example getClosestPreset_ex2 : getClosestPreset 1920 1080 = "landscape_16_9".
Proof. vm_compute. reflexivity. Qed.
Example getClosestPreset_ex3 : getClosestPreset 1080 1920 = "portrait_16_9".
Proof. vm_compute. reflexivity. Qed.
Example getClosestPreset_ex4 : getClosestPreset 2000 1 = "square_hd".
Proof. vm_compute. reflexivity. Qed.
Example getClosestPreset_ex5 : getClosestPreset 7 6 = "landscape_4_3".
Proof. vm_compute. reflexivity. Qed.
Example getClosestRatio_ex : getClosestRatio 1920 1080 = "16:9".
Proof. vm_compute. reflexivity. Qed.

(** Closed decidable goals are settled by evaluation. *)
Ltac by_decide := apply (bool_decide_unpack _); vm_compute; exact I.

(** ** Ratio/preset resolver *)

Lemma presetToRatio_elem (entries : list (string * string)) (r p : string) :
  NoDup entries.*2 → (r, p) ∈ entries → presetToRatio entries p = r.
Proof.
  induction entries as [|[r' p'] rest IH]; intros Hnd Hin.
  - by apply elem_of_nil in Hin.
  - cbn [presetToRatio]. apply NoDup_cons in Hnd as [Hfresh Hnd].
    apply elem_of_cons in Hin as [Heq | Hin].
    + injection Heq as -> ->. by rewrite String.eqb_refl.
    + destruct (String.eqb_spec p' p) as [-> | _]; [|by apply IH].
      exfalso. apply Hfresh. cbn. apply list_elem_of_fmap. by exists (r, p).
Qed.

Lemma presetToRatio_absent (entries : list (string * string)) (p : string) :
  p ∉ entries.*2 → presetToRatio entries p = "1:1".
Proof.
  induction entries as [|[r' p'] rest IH]; intros Hnin; [done|].
  cbn [presetToRatio]. cbn in Hnin. apply not_elem_of_cons in Hnin as [Hne Hnin].
  destruct (String.eqb_spec p' p) as [-> | _]; [done | by apply IH].
Qed.

Lemma ratioToPreset_presets_NoDup : NoDup (map_to_list ratioToPreset).*2.
Proof. by_decide. Qed.

(** The reverse lookup does not depend on the order in which the map is
    iterated. *)
Lemma presetToRatio_order (entries : list (string * string)) (p : string) :
  entries ≡ₚ map_to_list ratioToPreset →
  presetToRatio entries p = presetToRatio (map_to_list ratioToPreset) p.
Proof.
  intros Hperm.
  assert (Hnd : NoDup entries.*2).
  { rewrite Hperm. apply ratioToPreset_presets_NoDup. }
  destruct (decide (p ∈ entries.*2)) as [Hin | Hnin].
  - apply list_elem_of_fmap in Hin as [[r p'] [-> Hin]]. cbn.
    rewrite (presetToRatio_elem entries r p') by done.
    symmetry. apply presetToRatio_elem; [apply ratioToPreset_presets_NoDup|].
    by rewrite <- Hperm.
  - rewrite presetToRatio_absent by done.
    symmetry. apply presetToRatio_absent. by rewrite <- Hperm.
Qed.

Lemma presetToRatio_nonempty (entries : list (string * string)) (p : string) :
  entries ≡ₚ map_to_list ratioToPreset → presetToRatio entries p ≠ "".
Proof.
  intros Hperm. rewrite presetToRatio_order by done.
  assert (map_to_list ratioToPreset =
          [("3:4", "portrait_4_3"); ("9:16", "portrait_16_9"); ("16:9", "landscape_16_9");
           ("1:1", "square_hd"); ("4:3", "landscape_4_3")]) as ->
    by (vm_compute; reflexivity).
  cbn [presetToRatio]. by repeat case_match.
Qed.

(** C5: on the five mapped ratio strings, Ratio→Preset ([parseSize])
    followed by Preset→Ratio (the reverse lookup of [getClosestRatio] in
    the same table, in whatever order the map is iterated) gives back the
    ratio string. *)
Theorem ratio_preset_ratio_roundtrip (entries : list (string * string)) (r : string) :
  entries ≡ₚ map_to_list ratioToPreset →
  r ∈ ["9:16"; "3:4"; "1:1"; "4:3"; "16:9"] →
  presetToRatio entries (parseSize r) = r.
Proof.
  intros Hperm Hr. rewrite presetToRatio_order by done.
  repeat (apply elem_of_cons in Hr as [-> | Hr]; [by vm_compute|]).
  by apply elem_of_nil in Hr.
Qed.

Lemma ratio_preset_ratio_roundtrip_witness :
  presetToRatio [("16:9", "landscape_16_9"); ("4:3", "landscape_4_3");
                 ("1:1", "square_hd"); ("3:4", "portrait_4_3");
                 ("9:16", "portrait_16_9")] (parseSize "3:4") = "3:4".
Proof.
  apply ratio_preset_ratio_roundtrip.
  - by_decide.
  - by_decide.
Defined.

(** ** The effect monad *)

Lemma bind_ret {E A B : Type} (a : A) (k : A → Eff E B) : bind (ret a) k = k a.
Proof. unfold bind, ret. cbn. by destruct (k a). Qed.

Lemma bind_throw {E A B : Type} (e : E) (k : A → Eff E B) : bind (throw e) k = throw e.
Proof. reflexivity. Qed.

Lemma bind_ret_r {E A : Type} (m : Eff E A) : bind m ret = m.
Proof. destruct m as [t [e|a]]; cbn; [done|]. unfold bind. cbn. by rewrite app_nil_r. Qed.

Lemma bind_assoc {E A B C : Type} (m : Eff E A) (k : A → Eff E B) (h : B → Eff E C) :
  bind (bind m k) h = bind m (λ a, bind (k a) h).
Proof.
  destruct m as [t [e|a]]; unfold bind; cbn; [done|].
  destruct (k a) as [t' [e'|b]]; cbn; [done|]. by rewrite app_assoc.
Qed.

Lemma trace_bind {E A B : Type} (m : Eff E A) (k : A → Eff E B) :
  trace (bind m k) =
  trace m ++ match outcome m with inl _ => [] | inr a => trace (k a) end.
Proof. unfold bind. destruct (outcome m); cbn; by rewrite ?app_nil_r. Qed.

Lemma outcome_bind {E A B : Type} (m : Eff E A) (k : A → Eff E B) :
  outcome (bind m k) =
  match outcome m with inl e => inl e | inr a => outcome (k a) end.
Proof. unfold bind. by destruct (outcome m). Qed.

Lemma readImages_trace (env : Env) (paths : list string) (i : Z) (imageURLs : list string) :
  trace (readImages env i paths imageURLs) = [].
Proof.
  revert i imageURLs. induction paths as [|p paths IH]; intros i imageURLs; cbn; [done|].
  destruct (imageToDataURI env p); [apply IH | done].
Qed.

(** ** Model resolution *)

(** C9: resolution is one alias lookup followed by a lookup in [models];
    an unknown name and a model without an edit path asked to edit are
    two different fatal errors, and in both cases the run ends with exit
    code 1 before anything is sent. *)
Theorem model_resolution_errors
    (env : Env) (entries : list (string * string)) (flags : Flags) (prompt : string)
    (rest : list string) :
  let run := runGenerateIn env entries flags (prompt :: rest) in
  resolveModel (model flags) = default (model flags) (modelAliases !! model flags)
  ∧ (models !! resolveModel (model flags) = None →
       trace run = [] ∧ exitCode run = 1
       ∧ ∀ apiKey, falKey env = Some apiKey →
           outcome run = inl (UnknownModel (model flags)))
  ∧ (∀ info, models !! resolveModel (model flags) = Some info →
       inputImages flags ≠ [] → EditPath info = "" →
       trace run = [] ∧ exitCode run = 1
       ∧ ∀ apiKey, falKey env = Some apiKey →
           outcome run = inl (NoEditSupport (model flags)))
  ∧ (∀ name name', UnknownModel name ≠ NoEditSupport name'
       ∧ stderrText (UnknownModel name) ≠ stderrText (NoEditSupport name')).
Proof.
  cbn zeta. split; [|split; [|split]].
  - unfold resolveModel. by destruct (modelAliases !! model flags).
  - intros Hnone. unfold runGenerateIn, exitCode, getAPIKey.
    destruct (falKey env) as [k|]; [|by repeat split].
    rewrite bind_ret, Hnone, bind_throw. by repeat split.
  - intros info Hinfo Himgs Hedit. unfold runGenerateIn, exitCode, getAPIKey.
    destruct (falKey env) as [k|]; [|by repeat split].
    rewrite bind_ret, Hinfo, bind_ret.
    destruct (inputImages flags) as [|img imgs]; [done|]. cbn [length Nat.ltb Nat.leb].
    rewrite Hedit. cbn [String.eqb]. rewrite bind_throw. by repeat split.
  - intros name name'. split; [done|]. cbn. intros H. discriminate H.
Qed.

(** ** The shape of a run *)

Lemma callFALAPI_trace (env : Env) (apiKey modelPath : string) (req : ImageRequest) :
  trace (callFALAPI env apiKey modelPath req) =
  [HttpPost (falBaseURL +:+ "/" +:+ modelPath) apiKey (marshal req)].
Proof.
  unfold callFALAPI. rewrite trace_bind. cbn.
  repeat case_match; reflexivity.
Qed.

Lemma saveFirstImage_posted (env : Env) (flags : Flags) (response : ImageResponse) :
  posted (saveFirstImage env flags response) = [].
Proof.
  unfold posted, saveFirstImage, downloadImage.
  destruct (Images response); [reflexivity|].
  rewrite !trace_bind. cbn. by repeat case_match.
Qed.

Lemma setImageURLs_nil (info : ModelInfo) (sizeValue : string) (seed : Z) (prompt format : string) :
  let req := setSeed seed (setSizeParam info sizeValue (newRequest prompt format)) in
  setImageURLs [] req = req.
Proof. cbn zeta. unfold setSeed, setSizeParam. by repeat case_match. Qed.

(** A run either ends before it sends anything, not having saved an
    image, or it is the call to the API with the request built from the
    flags followed by the saving of the first image. *)
Lemma runGenerateIn_view (env : Env) (entries : list (string * string)) (flags : Flags)
    (args : list string) :
  let run := runGenerateIn env entries flags args in
  let edit := (0 <? length (inputImages flags))%nat in
  (trace run = [] ∧ ∀ outPath response, outcome run ≠ inr (Saved outPath response))
  ∨ ∃ prompt apiKey info imageURLs,
      head args = Some prompt
      ∧ falKey env = Some apiKey
      ∧ models !! resolveModel (model flags) = Some info
      ∧ (if edit
         then EditPath info ≠ "" ∧ readImages env 0 (inputImages flags) [] = ret imageURLs
         else imageURLs = [])
      ∧ run = bind (mapErr CallFailed
                      (callFALAPI env apiKey (if edit then EditPath info else GenPath info)
                         (requestOf env entries flags prompt info imageURLs)))
                   (saveFirstImage env flags).
Proof.
  cbn zeta. unfold runGenerateIn, getAPIKey.
  destruct args as [|prompt rest]; [by left|].
  destruct (falKey env) as [apiKey|]; [|by left].
  rewrite bind_ret.
  destruct (models !! resolveModel (model flags)) as [info|]; [|by left].
  rewrite bind_ret.
  destruct (0 <? length (inputImages flags))%nat.
  - destruct (String.eqb_spec (EditPath info) "") as [Heq | Hne]; [by left|].
    rewrite bind_ret.
    pose proof (readImages_trace env (inputImages flags) 0 []) as Htrace.
    destruct (readImages env 0 (inputImages flags) []) as [t [e | imageURLs]];
      cbn in Htrace; subst t.
    + by left.
    + right. exists prompt, apiKey, info, imageURLs.
      split_and!; try done. change (MkEff [] (inr imageURLs)) with (@ret FatalError _ imageURLs).
      by rewrite !bind_ret.
  - right. exists prompt, apiKey, info, []. rewrite !bind_ret.
    split_and!; try done. unfold requestOf. by rewrite setImageURLs_nil.
Qed.

(** Whatever a run posts is the marshalled request built from the
    resolved model, the size directive, the seed and the data URIs, sent
    to the model's generation or edit endpoint. *)
Lemma posted_request (env : Env) (entries : list (string * string)) (flags : Flags)
    (args : list string) (url : string) (payload : json) :
  (url, payload) ∈ posted (runGenerateIn env entries flags args) →
  ∃ prompt info imageURLs,
    head args = Some prompt
    ∧ models !! resolveModel (model flags) = Some info
    ∧ (if (0 <? length (inputImages flags))%nat
       then outcome (readImages env 0 (inputImages flags) []) = inr imageURLs
       else imageURLs = [])
    ∧ url = falBaseURL +:+ "/" +:+
              (if (0 <? length (inputImages flags))%nat then EditPath info else GenPath info)
    ∧ payload = marshal (requestOf env entries flags prompt info imageURLs).
Proof.
  destruct (runGenerateIn_view env entries flags args)
    as [[Hnil _] | (prompt & apiKey & info & imageURLs & Hargs & _ & Hinfo & Hread & ->)];
    cbn zeta in *.
  - unfold posted. rewrite Hnil. by intros ?%elem_of_nil.
  - unfold posted. rewrite trace_bind, omap_app. cbn [mapErr trace outcome].
    rewrite callFALAPI_trace. intros [Hin | Hin]%elem_of_app.
    + cbn in Hin. apply list_elem_of_singleton in Hin. injection Hin as -> ->.
      exists prompt, info, imageURLs. split_and!; try done.
      destruct (0 <? length (inputImages flags))%nat; [|done].
      destruct Hread as [_ ->]. done.
    + destruct (outcome (callFALAPI _ _ _ _)); [by apply elem_of_nil in Hin|].
      fold (posted (saveFirstImage env flags i)) in Hin.
      rewrite saveFirstImage_posted in Hin. by apply elem_of_nil in Hin.
Qed.

(** ** The marshalled request *)

Lemma member_None_keys (key : string) (v : json) :
  member key v = None ↔ key ∉ keys v.
Proof.
  destruct v as [| | | | |members]; cbn;
    try (split; [intros _; apply not_elem_of_nil | done]).
  induction members as [|[k v] members IH]; cbn.
  - split; [intros _; apply not_elem_of_nil | done].
  - rewrite not_elem_of_cons. destruct (String.eqb_spec k key) as [-> | Hne]; cbn.
    + split; [done | by intros [? _]].
    + rewrite IH. split; [by intros ?; split; [congruence|] | by intros [_ ?]].
Qed.

Lemma member_image_size (req : ImageRequest) :
  member "image_size" (marshal req) =
  match ImageSize req with
  | SizeNil => None
  | SizeString s => Some (JString (marshalString s))
  | SizeStruct d =>
      Some (JObject [("width", JNumber (pretty (SizeWidth d)));
                     ("height", JNumber (pretty (SizeHeight d)))])
  end.
Proof.
  unfold member, marshal, marshalMembers, marshalImageSize, omitEmptyString.
  by repeat case_match.
Qed.

Lemma member_aspect_ratio (req : ImageRequest) :
  member "aspect_ratio" (marshal req) =
  if String.eqb (AspectRatio req) "" then None
  else Some (JString (marshalString (AspectRatio req))).
Proof.
  unfold member, marshal, marshalMembers, marshalImageSize, omitEmptyString.
  by repeat case_match.
Qed.

Lemma member_seed (req : ImageRequest) :
  member "seed" (marshal req) = (λ n, JNumber (pretty n)) <$> Seed req.
Proof.
  unfold member, marshal, marshalMembers, marshalImageSize, omitEmptyString.
  by repeat case_match.
Qed.

Lemma setSizeParam_Seed (info : ModelInfo) (sizeValue : string) (req : ImageRequest) :
  Seed (setSizeParam info sizeValue req) = Seed req.
Proof. unfold setSizeParam. by repeat case_match. Qed.

Lemma setSeed_sizes (seed : Z) (req : ImageRequest) :
  ImageSize (setSeed seed req) = ImageSize req
  ∧ AspectRatio (setSeed seed req) = AspectRatio req.
Proof. unfold setSeed. by case_match. Qed.

Lemma setSeed_Seed (seed : Z) (req : ImageRequest) :
  Seed (setSeed seed req) = if 0 <=? seed then Some seed else Seed req.
Proof. unfold setSeed. by case_match. Qed.

(** ** Seed *)

(** C7: a posted request has a [seed] member exactly when the seed flag
    is not negative, and then its value is the flag's; with a negative
    seed (the default [-1]) the key is absent from the payload, with
    [--seed 42] the payload has [seed: 42]. *)
Theorem seed_sent_iff_nonnegative
    (env : Env) (entries : list (string * string)) (flags : Flags) (args : list string)
    (url : string) (payload : json) :
  (url, payload) ∈ posted (runGenerateIn env entries flags args) →
  ("seed" ∈ keys payload ↔ 0 ≤ seed flags)
  ∧ (0 ≤ seed flags → member "seed" payload = Some (JNumber (pretty (seed flags))))
  ∧ (seed flags < 0 → member "seed" payload = None)
  ∧ (seed flags = -1 → "seed" ∉ keys payload)
  ∧ (seed flags = 42 → member "seed" payload = Some (JNumber "42")).
Proof.
  intros (prompt & info & imageURLs & _ & _ & _ & _ & ->)%posted_request.
  assert (Hseed : member "seed" (marshal (requestOf env entries flags prompt info imageURLs))
                  = if 0 <=? seed flags then Some (JNumber (pretty (seed flags))) else None).
  { rewrite member_seed. unfold requestOf. cbn [setImageURLs Seed].
    rewrite setSeed_Seed, setSizeParam_Seed. cbn [newRequest Seed]. by case_match. }
  set (payload := marshal _) in *.
  assert (Hkeys : "seed" ∈ keys payload ↔ 0 ≤ seed flags).
  { destruct (decide ("seed" ∈ keys payload)) as [Hin | Hnin].
    - split; [intros _ | done]. apply Z.leb_le.
      destruct (0 <=? seed flags); [done|].
      by apply member_None_keys in Hseed.
    - split; [done | intros Hle]. apply Z.leb_le in Hle. rewrite Hle in Hseed.
      apply member_None_keys in Hnin. congruence. }
  split; [done|]. split; [|split; [|split]].
  - intros Hle. apply Z.leb_le in Hle. by rewrite Hseed, Hle.
  - intros Hlt. apply Z.leb_gt in Hlt. by rewrite Hseed, Hlt.
  - intros Hm. rewrite Hkeys, Hm. lia.
  - intros Hs. by rewrite Hseed, Hs.
Qed.

(** ** Size parameter *)

Lemma parseSize_other (s : string) :
  s ∉ ["9:16"; "3:4"; "1:1"; "4:3"; "16:9"] → parseSize s = s.
Proof.
  intros Hs. unfold parseSize, ratioToPreset.
  by rewrite (not_elem_of_list_to_map_1 _ s).
Qed.

(** C2: for an [aspect_ratio] model a non-empty directive goes into
    [AspectRatio] as it is, whether or not [aspectRatioSupported] lists it
    and without [parseSize]; for an [image_size] model the directive
    [auto] goes into [ImageSize] as it is and any other non-empty one
    after [parseSize], which maps the five ratio strings to their presets
    and leaves every other string alone. *)
Theorem size_param_materialization (info : ModelInfo) (sizeValue : string) (req : ImageRequest) :
  (SizeParamName info = "aspect_ratio" → sizeValue ≠ "" →
     AspectRatio (setSizeParam info sizeValue req) = sizeValue
     ∧ ImageSize (setSizeParam info sizeValue req) = ImageSize req)
  ∧ (SizeParamName info = "aspect_ratio" →
     aspectRatioSupported !! "7:5" = None
     ∧ AspectRatio (setSizeParam info "7:5" req) = "7:5"
     ∧ AspectRatio (setSizeParam info "16:9" req) = "16:9")
  ∧ (SizeParamName info = "image_size" →
     ImageSize (setSizeParam info "auto" req) = SizeString "auto"
     ∧ AspectRatio (setSizeParam info "auto" req) = AspectRatio req)
  ∧ (SizeParamName info = "image_size" → sizeValue ≠ "" → sizeValue ≠ "auto" →
     ImageSize (setSizeParam info sizeValue req) = SizeString (parseSize sizeValue)
     ∧ AspectRatio (setSizeParam info sizeValue req) = AspectRatio req)
  ∧ parseSize "9:16" = "portrait_16_9"
  ∧ parseSize "3:4" = "portrait_4_3"
  ∧ parseSize "1:1" = "square_hd"
  ∧ parseSize "4:3" = "landscape_4_3"
  ∧ parseSize "16:9" = "landscape_16_9"
  ∧ (sizeValue ∉ ["9:16"; "3:4"; "1:1"; "4:3"; "16:9"] → parseSize sizeValue = sizeValue).
Proof.
  unfold setSizeParam.
  refine (conj _ (conj _ (conj _ (conj _ (conj _ (conj _ (conj _ (conj _ (conj _ _))))))))).
  - intros -> Hne%String.eqb_neq. cbn [String.eqb Ascii.eqb Bool.eqb]. by rewrite Hne.
  - intros ->. split; [vm_compute; reflexivity | done].
  - by intros ->.
  - intros -> Hne%String.eqb_neq Hauto%String.eqb_neq.
    cbn [String.eqb Ascii.eqb Bool.eqb]. by rewrite Hne, Hauto.
  - vm_compute. reflexivity.
  - vm_compute. reflexivity.
  - vm_compute. reflexivity.
  - vm_compute. reflexivity.
  - vm_compute. reflexivity.
  - apply parseSize_other.
Qed.

Lemma setSizeParam_newRequest (info : ModelInfo) (sizeValue prompt format : string) :
  let req := setSizeParam info sizeValue (newRequest prompt format) in
  (SizeParamName info = "aspect_ratio" → ImageSize req = SizeNil)
  ∧ (SizeParamName info ≠ "aspect_ratio" → AspectRatio req = "").
Proof.
  cbn zeta. unfold setSizeParam. split.
  - intros ->. cbn [String.eqb Ascii.eqb Bool.eqb]. by case_match.
  - intros Hne%String.eqb_neq. rewrite Hne. by repeat case_match.
Qed.

(** C10: a posted request never has both size members: for an
    [aspect_ratio] model it has no [image_size], for any other model (the
    [image_size] ones) it has no [aspect_ratio]. *)
Theorem at_most_one_size_field
    (env : Env) (entries : list (string * string)) (flags : Flags) (args : list string)
    (url : string) (payload : json) :
  (url, payload) ∈ posted (runGenerateIn env entries flags args) →
  ¬ ("image_size" ∈ keys payload ∧ "aspect_ratio" ∈ keys payload)
  ∧ (∀ info, models !! resolveModel (model flags) = Some info →
       (SizeParamName info = "aspect_ratio" → "image_size" ∉ keys payload)
       ∧ (SizeParamName info = "image_size" → "aspect_ratio" ∉ keys payload))
  ∧ (∀ info sizeValue seedFlag prompt formatFlag,
       let req :=
         setSeed seedFlag (setSizeParam info sizeValue (newRequest prompt formatFlag)) in
       (SizeParamName info = "aspect_ratio" → ImageSize req = SizeNil)
       ∧ (SizeParamName info = "image_size" → AspectRatio req = "")
       ∧ (ImageSize req = SizeNil ∨ AspectRatio req = "")).
Proof.
  intros (prompt & info & imageURLs & _ & Hinfo & _ & _ & ->)%posted_request.
  pose proof (setSizeParam_newRequest info
    (sizeValueFor env entries info (size flags) (inputImages flags))
    prompt (format flags)) as [Hratio Hsize].
  cbn zeta in Hratio, Hsize. unfold requestOf.
  set (built := setSizeParam _ _ _) in *.
  assert (Hone : (SizeParamName info = "aspect_ratio" →
                    "image_size" ∉ keys (marshal (setImageURLs imageURLs (setSeed (seed flags) built))))
               ∧ (SizeParamName info ≠ "aspect_ratio" →
                    "aspect_ratio" ∉ keys (marshal (setImageURLs imageURLs (setSeed (seed flags) built))))).
  { split; intros H; apply member_None_keys.
    - rewrite member_image_size. cbn [setImageURLs ImageSize].
      destruct (setSeed_sizes (seed flags) built) as [-> _]. by rewrite Hratio.
    - rewrite member_aspect_ratio. cbn [setImageURLs AspectRatio].
      destruct (setSeed_sizes (seed flags) built) as [_ ->]. by rewrite Hsize. }
  destruct Hone as [Hone1 Hone2]. split; [|split].
  - intros [Hi Ha].
    destruct (decide (SizeParamName info = "aspect_ratio")) as [Heq | Hne];
      [by apply Hone1 | by apply Hone2].
  - intros info' Hinfo'. assert (info' = info) as -> by congruence.
    split; [done|]. intros Heq. apply Hone2. by rewrite Heq.
  - intros info' sizeValue seed' prompt' format'. cbn zeta.
    destruct (setSeed_sizes seed' (setSizeParam info' sizeValue (newRequest prompt' format')))
      as [-> ->].
    destruct (setSizeParam_newRequest info' sizeValue prompt' format') as [H1 H2].
    cbn zeta in H1, H2. split; [done|]. split.
    + intros Heq. apply H2. by rewrite Heq.
    + destruct (decide (SizeParamName info' = "aspect_ratio")); [left | right]; auto.
Qed.

(** ** Strings in the payload *)

Lemma validUTF8_ascii (bytes : list ascii) : isASCII bytes = true → validUTF8 bytes = true.
Proof.
  induction bytes as [|c rest IH]; [done|]. cbn.
  intros [-> Hrest]%andb_true_iff. by apply IH.
Qed.

(** What is valid UTF-8 is written as it is. *)
Lemma coerceUTF8_valid (bytes : list ascii) :
  validUTF8 bytes = true → coerceUTF8 bytes = bytes.
Proof.
  remember (length bytes) as n eqn:Hn. revert bytes Hn.
  induction n as [n IH] using lt_wf_ind. intros bytes ->.
  destruct bytes as [|c rest]; [done|]. cbn [validUTF8 coerceUTF8].
  destruct (code c <? 128)%N.
  - intros Hrest. f_equal. by apply (IH (length rest)); [cbn; lia|..].
  - repeat case_match; try done; subst; intros Hrest; repeat f_equal;
      (eapply IH; [|reflexivity|done]); cbn; lia.
Qed.

(** The width of a sequence depends on its bytes only. *)
Lemma utf8Width_2 (c c1 : ascii) (rest rest' : list ascii) :
  utf8Width c (c1 :: rest) = Some 2%nat → utf8Width c (c1 :: rest') = Some 2%nat.
Proof.
  unfold utf8Width.
  destruct (utf8Lead c) as [[[[|[|[|[|k]]]] lo] hi]|]; try done;
    destruct rest as [|? [|? ?]]; try done; repeat case_match; done.
Qed.

Lemma utf8Width_3 (c c1 c2 : ascii) (rest rest' : list ascii) :
  utf8Width c (c1 :: c2 :: rest) = Some 3%nat → utf8Width c (c1 :: c2 :: rest') = Some 3%nat.
Proof.
  unfold utf8Width.
  destruct (utf8Lead c) as [[[[|[|[|[|k]]]] lo] hi]|]; try done;
    destruct rest as [|? ?]; try done; repeat case_match; done.
Qed.

Lemma utf8Width_4 (c c1 c2 c3 : ascii) (rest rest' : list ascii) :
  utf8Width c (c1 :: c2 :: c3 :: rest) = Some 4%nat →
  utf8Width c (c1 :: c2 :: c3 :: rest') = Some 4%nat.
Proof.
  unfold utf8Width.
  destruct (utf8Lead c) as [[[[|[|[|[|k]]]] lo] hi]|]; try done; repeat case_match; done.
Qed.

(** What is written is valid UTF-8. *)
Lemma validUTF8_coerceUTF8 (bytes : list ascii) : validUTF8 (coerceUTF8 bytes) = true.
Proof.
  remember (length bytes) as n eqn:Hn. revert bytes Hn.
  induction n as [n IH] using lt_wf_ind. intros bytes ->.
  destruct bytes as [|c rest]; [done|]. cbn [coerceUTF8].
  destruct (code c <? 128)%N eqn:Hc.
  - cbn [validUTF8]. rewrite Hc. by apply (IH (length rest)); [cbn; lia|..].
  - assert (validUTF8 (replacement ++ coerceUTF8 rest) = true) as Hreplaced
      by (by apply (IH (length rest)); [cbn; lia|..]).
    destruct (utf8Width c rest) as [width|] eqn:Hwidth; [|done].
    destruct width as [|[|[|[|[|width]]]]]; try done.
    + destruct rest as [|c1 rest1]; [done|].
      cbn [validUTF8]. rewrite Hc, (utf8Width_2 _ _ _ _ Hwidth).
      by apply (IH (length rest1)); [cbn; lia|..].
    + destruct rest as [|c1 [|c2 rest2]]; [done..|].
      cbn [validUTF8]. rewrite Hc, (utf8Width_3 _ _ _ _ _ Hwidth).
      by apply (IH (length rest2)); [cbn; lia|..].
    + destruct rest as [|c1 [|c2 [|c3 rest3]]]; [done..|].
      cbn [validUTF8]. rewrite Hc, (utf8Width_4 _ _ _ _ _ _ Hwidth).
      by apply (IH (length rest3)); [cbn; lia|..].
Qed.

Lemma marshalString_valid (s : string) : ValidString s = true → marshalString s = s.
Proof.
  intros Hvalid. unfold marshalString.
  by rewrite (coerceUTF8_valid _ Hvalid), string_of_list_ascii_of_string.
Qed.

Lemma marshalString_ascii (s : string) :
  isASCII (list_ascii_of_string s) = true → marshalString s = s.
Proof. intros Hascii. by apply marshalString_valid, validUTF8_ascii. Qed.

Lemma ValidString_marshalString (s : string) : ValidString (marshalString s) = true.
Proof.
  unfold ValidString, marshalString.
  rewrite list_ascii_of_string_of_list_ascii. apply validUTF8_coerceUTF8.
Qed.

Example marshalString_invalid_byte :
  marshalString (String "c" (String "a" (String "f" (String "255" "")))) =
  String "c" (String "a" (String "f" (String "239" (String "191" (String "189" ""))))).
Proof. reflexivity. Qed.

Example marshalString_invalid_run :
  marshalString (String "128" (String "255" (String "a" ""))) =
  String "239" (String "191" (String "189"
    (String "239" (String "191" (String "189" (String "a" "")))))).
Proof. reflexivity. Qed.

Example marshalString_two_byte_rune :
  marshalString (String "c" (String "a" (String "f" (String "195" (String "169" ""))))) =
  String "c" (String "a" (String "f" (String "195" (String "169" "")))).
Proof. reflexivity. Qed.

Lemma list_ascii_of_string_app (s t : string) :
  list_ascii_of_string (s +:+ t) = list_ascii_of_string s ++ list_ascii_of_string t.
Proof.
  induction s as [|c s IH]; [done|].
  change (String c s +:+ t) with (String c (s +:+ t)).
  cbn [list_ascii_of_string app]. by rewrite IH.
Qed.

(** ** Base64 *)

Lemma digit_ascii (val : N) : (code (Base64.digit val) <? 128)%N = true.
Proof.
  unfold Base64.digit.
  destruct (nth_in_or_default (N.to_nat (val mod 64)) Base64.encodeStd "="%char)
    as [Hin | ->]; [|reflexivity].
  apply (proj1 (forallb_forall (λ c, (code c <? 128)%N) Base64.encodeStd));
    [vm_compute; reflexivity | exact Hin].
Qed.

Lemma Encode_ascii (src : list ascii) : isASCII (Base64.Encode src) = true.
Proof.
  remember (length src) as n eqn:Hn. revert src Hn.
  induction n as [n IH] using lt_wf_ind. intros src ->.
  destruct src as [|a [|b [|c rest]]]; [done|..];
    cbn [Base64.Encode isASCII forallb app]; rewrite ?digit_ascii; [done..|].
  cbn [andb]. by apply (IH (length rest)); [cbn; lia|..].
Qed.

Example EncodeToString_vectors :
  Base64.EncodeToString "" = ""
  ∧ Base64.EncodeToString "f" = "Zg=="
  ∧ Base64.EncodeToString "fo" = "Zm8="
  ∧ Base64.EncodeToString "foo" = "Zm9v"
  ∧ Base64.EncodeToString "foob" = "Zm9vYg=="
  ∧ Base64.EncodeToString "fooba" = "Zm9vYmE="
  ∧ Base64.EncodeToString "foobar" = "Zm9vYmFy"
  ∧ Base64.EncodeToString (String "251" (String "255" (String "190" ""))) = "+/++".
Proof. by vm_compute. Qed.

(** ** Input images *)

(** [Ext] is the suffix from the last dot of the last path element. *)
Lemma extFrom_suffix (ext before suffix : list ascii) :
  Forall (λ c, eqc c "/" = false ∧ eqc c "." = false) ext →
  extFrom (rev ext ++ "."%char :: before) suffix = "."%char :: ext ++ suffix.
Proof.
  revert suffix. induction ext as [|c ext IH] using rev_ind; intros suffix Hall.
  - reflexivity.
  - apply Forall_app in Hall as [Hall Hc]. apply Forall_singleton in Hc as [Hslash Hdot].
    rewrite rev_app_distr. cbn [rev app extFrom]. rewrite Hslash, Hdot, IH by done.
    by rewrite <- app_assoc.
Qed.

Example Ext_upper_case : Ext "pictures/holiday.2024/photo.PNG" = ".PNG".
Proof. reflexivity. Qed.
Example Ext_no_dot : Ext "pictures.d/photo" = "".
Proof. reflexivity. Qed.
Example Ext_dot_file : Ext "archive.tar.gz" = ".gz".
Proof. reflexivity. Qed.

(** The extension of a path that ends in a dot and a name. *)
Lemma Ext_of_extension (stem ext : string) :
  Forall (λ c, c ≠ "/"%char ∧ c ≠ "."%char) (list_ascii_of_string ext) →
  Ext (stem +:+ "." +:+ ext) = "." +:+ ext.
Proof.
  intros Hext. unfold Ext.
  rewrite !list_ascii_of_string_app. change (list_ascii_of_string ".") with ["."%char].
  rewrite rev_app_distr. cbn [app rev].
  rewrite <- app_assoc. cbn [app].
  rewrite extFrom_suffix.
  - rewrite app_nil_r. change ("." +:+ ext) with (String "." ext).
    cbn [string_of_list_ascii]. by rewrite string_of_list_ascii_of_string.
  - eapply Forall_impl; [exact Hext|]. intros c [Hslash Hdot].
    by split; apply Ascii.eqb_neq.
Qed.

Lemma extFrom_no_dot (name before suffix : list ascii) :
  Forall (λ c, c ≠ "."%char) name →
  before = [] ∨ (∃ dir, before = "/"%char :: dir) →
  extFrom (rev name ++ before) suffix = [].
Proof.
  revert suffix. induction name as [|c name IH] using rev_ind; intros suffix Hname Hbefore.
  - by destruct Hbefore as [-> | [dir ->]].
  - apply Forall_app in Hname as [Hname Hc]. rewrite Forall_singleton in Hc.
    rewrite rev_app_distr. cbn [rev app extFrom].
    apply Ascii.eqb_neq in Hc. unfold eqc at 2. rewrite Hc.
    destruct (eqc c "/"); [done|]. by apply IH.
Qed.

(** A last path element without a dot has no extension. *)
Lemma Ext_without_dot (dir base : string) :
  Forall (λ c, c ≠ "."%char) (list_ascii_of_string base) →
  Ext base = "" ∧ Ext (dir +:+ "/" +:+ base) = "".
Proof.
  intros Hbase. unfold Ext. split.
  - rewrite <- (app_nil_r (rev _)), extFrom_no_dot; [done..|by left].
  - rewrite !list_ascii_of_string_app. change (list_ascii_of_string "/") with ["/"%char].
    rewrite rev_app_distr. cbn [app rev].
    rewrite <- app_assoc. cbn [app].
    rewrite extFrom_no_dot; [done..|right; by eexists].
Qed.

Lemma imageToDataURI_Ok (env : Env) (path data : string) :
  osReadFile env path = Ok data →
  imageToDataURI env path =
  Ok (dataURI (mimeTypeOf (ToLower env (Ext path))) (Base64.EncodeToString data)).
Proof. intros H. unfold imageToDataURI. by rewrite H. Qed.

Lemma mimeTypeOf_ascii (ext : string) :
  isASCII (list_ascii_of_string (mimeTypeOf ext)) = true.
Proof. unfold mimeTypeOf. by repeat case_match. Qed.

(** A data URI is ASCII, so [json.Marshal] writes it as it is. *)
Lemma imageToDataURI_marshalString (env : Env) (path uri : string) :
  imageToDataURI env path = Ok uri → marshalString uri = uri.
Proof.
  unfold imageToDataURI. destruct (osReadFile env path) as [data|err]; [|done].
  intros [= <-]. apply marshalString_ascii. unfold dataURI, isASCII.
  rewrite !list_ascii_of_string_app, !forallb_app.
  fold (isASCII (list_ascii_of_string (mimeTypeOf (ToLower env (Ext path))))).
  rewrite mimeTypeOf_ascii.
  unfold Base64.EncodeToString. rewrite list_ascii_of_string_of_list_ascii.
  fold (isASCII (Base64.Encode (list_ascii_of_string data))).
  by rewrite Encode_ascii.
Qed.

Lemma imageToDataURI_Err (env : Env) (path err : string) :
  osReadFile env path = Err err → imageToDataURI env path = Err err.
Proof. intros H. unfold imageToDataURI. by rewrite H. Qed.

Lemma mimeTypeOf_other (ext : string) :
  ext ∉ [".png"; ".jpg"; ".jpeg"; ".webp"; ".gif"] →
  mimeTypeOf ext = "application/octet-stream".
Proof.
  intros Hext. unfold mimeTypeOf.
  repeat (apply not_elem_of_cons in Hext as [?%String.eqb_neq Hext]).
  by repeat match goal with H : String.eqb _ _ = false |- _ => rewrite H; clear H end.
Qed.

(** A loop that does not fail returned the data URI of every path, in
    order, after what was there. *)
Lemma readImages_inr (env : Env) (paths : list string) (i : Z) (acc imageURLs : list string) :
  outcome (readImages env i paths acc) = inr imageURLs →
  ∃ uris, imageURLs = acc ++ uris
          ∧ Forall2 (λ path uri, imageToDataURI env path = Ok uri) paths uris.
Proof.
  revert i acc. induction paths as [|p paths IH]; intros i acc; cbn.
  - intros [= <-]. exists []. by rewrite app_nil_r.
  - destruct (imageToDataURI env p) as [uri|err] eqn:Hp; [|done].
    intros (uris & -> & Hall)%IH. exists (uri :: uris).
    rewrite <- app_assoc. split; [done|]. by constructor.
Qed.

(** The loop stops at the first path that cannot be read, with its
    ordinal position. *)
Lemma readImages_fails (env : Env) (good : list string) (bad : string) (after : list string)
    (err : string) (i : Z) (acc : list string) :
  Forall (λ path, ∃ data, osReadFile env path = Ok data) good →
  osReadFile env bad = Err err →
  readImages env i (good ++ bad :: after) acc =
  throw (ImageReadError (i + Z.of_nat (length good) + 1) bad err).
Proof.
  intros Hgood Hbad. revert i acc.
  induction Hgood as [|p good [data Hp] _ IH]; intros i acc; cbn [app readImages length].
  - rewrite (imageToDataURI_Err _ _ _ Hbad). do 3 f_equal. lia.
  - rewrite (imageToDataURI_Ok _ _ _ Hp), IH. do 3 f_equal. lia.
Qed.

Lemma member_image_urls (req : ImageRequest) :
  member "image_urls" (marshal req) =
  match ImageURLs req with
  | [] => None
  | urls => Some (JArray ((λ url, JString (marshalString url)) <$> urls))
  end.
Proof.
  unfold member, marshal, marshalMembers, marshalImageSize, omitEmptyString.
  by repeat case_match.
Qed.

(** C8: in edit mode every input image is read, encoded in base64 and
    wrapped in a data URI of the form [data:<type>;base64,<encoding>],
    whose MIME type is a function of the extension of the path alone,
    compared in lower case: [image/png] for [.png], [image/jpeg] for
    [.jpg] and [.jpeg], [image/webp] for [.webp], [image/gif] for [.gif]
    and [application/octet-stream] for every other extension and for a
    path without one, whatever the file holds.  The posted request
    carries the data URIs of all input images in order; and when one
    image cannot be read the run ends with the error naming the first
    such image's ordinal position and its path, with nothing posted. *)
Theorem edit_images_become_data_uris
    (env : Env) (entries : list (string * string)) (flags : Flags)
    (prompt : string) (rest : list string) (apiKey : string) (info : ModelInfo) :
  falKey env = Some apiKey →
  models !! resolveModel (model flags) = Some info →
  EditPath info ≠ "" →
  inputImages flags ≠ [] →
  let run := runGenerateIn env entries flags (prompt :: rest) in
  (∀ path data, osReadFile env path = Ok data →
     imageToDataURI env path =
     Ok ("data:" +:+ mimeTypeOf (ToLower env (Ext path)) +:+ ";base64,"
           +:+ Base64.EncodeToString data))
  ∧ (∀ stem ext,
       Forall (λ c, c ≠ "/"%char ∧ c ≠ "."%char) (list_ascii_of_string ext) →
       Ext (stem +:+ "." +:+ ext) = "." +:+ ext)
  ∧ (∀ dir base,
       Forall (λ c, c ≠ "."%char) (list_ascii_of_string base) →
       Ext base = "" ∧ Ext (dir +:+ "/" +:+ base) = "")
  ∧ (∀ stem ext mime data,
       (ext, mime) ∈ [(".png", "image/png"); (".jpg", "image/jpeg");
                      (".jpeg", "image/jpeg"); (".webp", "image/webp");
                      (".gif", "image/gif"); (".PNG", "image/png");
                      (".Jpg", "image/jpeg"); (".JPEG", "image/jpeg");
                      (".WebP", "image/webp"); (".GIF", "image/gif");
                      (".bmp", "application/octet-stream");
                      (".svg", "application/octet-stream");
                      (".png~", "application/octet-stream")] →
       osReadFile env (stem +:+ ext) = Ok data →
       imageToDataURI env (stem +:+ ext) =
       Ok ("data:" +:+ mime +:+ ";base64," +:+ Base64.EncodeToString data))
  ∧ (∀ dir base data,
       Forall (λ c, c ≠ "."%char) (list_ascii_of_string base) →
       osReadFile env (dir +:+ "/" +:+ base) = Ok data →
       imageToDataURI env (dir +:+ "/" +:+ base) =
       Ok ("data:application/octet-stream;base64," +:+ Base64.EncodeToString data))
  ∧ (∀ path, ToLower env (Ext path) ∉ [".png"; ".jpg"; ".jpeg"; ".webp"; ".gif"] →
       mimeTypeOf (ToLower env (Ext path)) = "application/octet-stream")
  ∧ (Base64.EncodeToString "" = ""
     ∧ Base64.EncodeToString "b" = "Yg=="
     ∧ Base64.EncodeToString "by" = "Ynk="
     ∧ Base64.EncodeToString "byt" = "Ynl0"
     ∧ Base64.EncodeToString "bytes" = "Ynl0ZXM=")
  ∧ (∀ url payload, (url, payload) ∈ posted run →
       ∃ uris, Forall2 (λ path uri, imageToDataURI env path = Ok uri) (inputImages flags) uris
               ∧ member "image_urls" payload = Some (JArray (JString <$> uris)))
  ∧ (∀ good bad after err,
       inputImages flags = good ++ bad :: after →
       Forall (λ path, ∃ data, osReadFile env path = Ok data) good →
       osReadFile env bad = Err err →
       outcome run = inl (ImageReadError (Z.of_nat (length good) + 1) bad err)
       ∧ trace run = []
       ∧ exitCode run = 1
       ∧ stderrText (ImageReadError (Z.of_nat (length good) + 1) bad err) =
           "Error reading image " +:+ pretty (Z.of_nat (length good) + 1)
             +:+ " (" +:+ bad +:+ "): " +:+ err +:+ newline).
Proof.
  intros Hkey Hinfo Hedit Himgs run.
  refine (conj _ (conj _ (conj _ (conj _ (conj _ (conj _ (conj _ (conj _ _)))))))).
  - apply imageToDataURI_Ok.
  - apply Ext_of_extension.
  - apply Ext_without_dot.
  - intros stem ext mime data Hin Hread.
    rewrite (imageToDataURI_Ok _ _ _ Hread). unfold dataURI.
    repeat (apply elem_of_cons in Hin as [[= -> ->]|Hin];
            [match goal with
             | |- context [Ext (stem +:+ String "." ?e)] =>
                 change (stem +:+ String "." e) with (stem +:+ "." +:+ e);
                 rewrite (Ext_of_extension stem e)
                   by (cbn [list_ascii_of_string];
                       repeat (apply List.Forall_cons; [by split|]); apply List.Forall_nil)
             end; reflexivity|]).
    by apply elem_of_nil in Hin.
  - intros dir base data Hbase Hread.
    rewrite (imageToDataURI_Ok _ _ _ Hread). unfold dataURI.
    by rewrite (proj2 (Ext_without_dot dir base Hbase)).
  - intros path. apply mimeTypeOf_other.
  - by vm_compute.
  - intros url payload (prompt' & info' & imageURLs & _ & _ & Hread & _ & ->)%posted_request.
    destruct (inputImages flags) as [|img imgs] eqn:Hlist; [done|].
    cbn [length Nat.ltb Nat.leb] in Hread.
    apply readImages_inr in Hread as (uris & -> & Hall).
    exists uris. split; [done|].
    rewrite member_image_urls. unfold requestOf. cbn [setImageURLs ImageURLs app].
    assert ((λ url, JString (marshalString url)) <$> uris = JString <$> uris) as Hvalid.
    { clear -Hall. induction Hall as [|path uri paths uris Huri _ IH]; [done|].
      cbn [fmap list_fmap]. by rewrite (imageToDataURI_marshalString _ _ _ Huri), IH. }
    destruct Hall; [done|]. by rewrite Hvalid.
  - intros good bad after err Hlist Hgood Hbad.
    assert (Hrun : run = throw (ImageReadError (Z.of_nat (length good) + 1) bad err)).
    { subst run. unfold runGenerateIn, getAPIKey.
      rewrite Hkey, bind_ret, Hinfo, bind_ret.
      apply String.eqb_neq in Hedit. rewrite Hedit.
      destruct (inputImages flags) as [|img imgs] eqn:Hlist'; [done|].
      cbn [length Nat.ltb Nat.leb]. rewrite bind_ret.
      rewrite Hlist, (readImages_fails env good bad after err 0 [] Hgood Hbad).
      by rewrite !bind_throw. }
    by rewrite Hrun.
Qed.

(** ** Responses *)

Lemma callFALAPI_outcome (env : Env) (apiKey modelPath : string) (req : ImageRequest) :
  outcome (callFALAPI env apiKey modelPath req) =
  match httpDo env (falBaseURL +:+ "/" +:+ modelPath) apiKey (marshal req) with
  | Err err => inl (RequestFailed err)
  | Ok (_, Err err) => inl (ReadFailed err)
  | Ok (statusCode, Ok body) =>
      if statusCode =? 200 then
        match unmarshalImageResponse body with
        | None => inl (ParseFailed (unmarshalErrorText env body))
        | Some imgResp => inr imgResp
        end
      else inl (APIError statusCode (apiErrorMessage body))
  end.
Proof.
  unfold callFALAPI. rewrite outcome_bind. cbn.
  repeat case_match; simplify_eq; try reflexivity; by destruct (_ =? _).
Qed.


(** A repeated key decodes on top of what the earlier one left, except
    after an empty array, which leaves a new empty slice: the entry of a
    later array then starts from the zero value. *)
Example unmarshalDetailedErr_repeated_key :
  unmarshalDetailedErr (quoted "{'detail':[{'msg':'a'},{'msg':'b'}],'detail':[{'type':'t'}]}")
  = Some [{| Msg := "a"; Type_ := "t" |}].
Proof. vm_compute. reflexivity. Qed.

Example unmarshalDetailedErr_after_empty_array :
  unmarshalDetailedErr (quoted "{'detail':[{'msg':'a'}],'detail':[],'detail':[{'type':'t'}]}")
  = Some [{| Msg := ""; Type_ := "t" |}]
  ∧ apiErrorMessage (quoted "{'detail':[{'msg':'a'}],'detail':[],'detail':[{'type':'t'}]}") = "".
Proof. split; vm_compute; reflexivity. Qed.

Example unmarshalImageResponse_after_empty_array :
  unmarshalImageResponse
    (quoted "{'images':[{'url':'http://a'}],'images':[],'images':[{'width':1}]}")
  = Some {| Images := [{| URL := ""; Width := 1; Height := 0; ContentType := "" |}];
            ResponseSeed := 0 |}
  ∧ last (trace (runGenerate
                   (sampleEnv 200
                      (quoted "{'images':[{'url':'http://a'}],'images':[],'images':[{'width':1}]}"))
                   sampleFlags ["a cat"]))
    = Some (HttpGet "")
  ∧ outcome (runGenerate
               (sampleEnv 200
                  (quoted "{'images':[{'url':'http://a'}],'images':[],'images':[{'width':1}]}"))
               sampleFlags ["a cat"])
    = inl (SaveFailed "unsupported protocol scheme").
Proof. refine (conj _ (conj _ _)); vm_compute; reflexivity. Qed.

Lemma elem_of_posted {E A : Type} (run : Eff E A) (url apiKey : string) (payload : json) :
  HttpPost url apiKey payload ∈ trace run → (url, payload) ∈ posted run.
Proof.
  intros Hin. unfold posted. apply list_elem_of_omap.
  by exists (HttpPost url apiKey payload).
Qed.

(** C6, amended: a run that saves an image got at least one image; a
    response with a success status whose body decodes to an empty image
    list ends the run with exit code 1, never with a saved image: with
    the error "No images returned" when the status is 200, and as an API
    error for any other success status, whose body the program does not
    decode as a list of images. *)
Theorem empty_image_list_is_fatal
    (env : Env) (entries : list (string * string)) (flags : Flags) (args : list string) :
  let run := runGenerateIn env entries flags args in
  (∀ outPath response, outcome run = inr (Saved outPath response) → Images response ≠ [])
  ∧ (∀ url apiKey payload status body response,
       HttpPost url apiKey payload ∈ trace run →
       httpDo env url apiKey payload = Ok (status, Ok body) →
       200 ≤ status < 300 →
       unmarshalImageResponse body = Some response →
       Images response = [] →
       exitCode run = 1
       ∧ (status = 200 →
            outcome run = inl NoImagesReturned
            ∧ stderrText NoImagesReturned = "Error: No images returned" +:+ newline)
       ∧ (status ≠ 200 →
            outcome run = inl (CallFailed (APIError status (apiErrorMessage body)))))
  ∧ unmarshalImageResponse (quoted "{'images': []}") = Some {| Images := []; ResponseSeed := 0 |}
  ∧ outcome (runGenerate (sampleEnv 200 (quoted "{'images': []}")) sampleFlags ["a cat"])
      = inl NoImagesReturned.
Proof.
  cbn zeta. refine (conj _ (conj _ (conj _ _))); [| |vm_compute; reflexivity..].
  - intros outPath response.
    destruct (runGenerateIn_view env entries flags args)
      as [[_ Hnot] | (prompt & apiKey & info & imageURLs & _ & _ & _ & _ & ->)];
      cbn zeta in *; [by intros ?%Hnot|].
    rewrite outcome_bind. cbn [mapErr outcome].
    destruct (outcome (callFALAPI _ _ _ _)) as [e|response']; [done|].
    unfold saveFirstImage. destruct (Images response') as [|first others] eqn:Himgs; [done|].
    rewrite outcome_bind. destruct (outcome (downloadImage _ _ _)); [done|].
    cbn. intros [= _ <-]. by rewrite Himgs.
  - intros url apiKey payload status body response Hin Hdo Hstatus Hbody Hempty.
    destruct (runGenerateIn_view env entries flags args)
      as [[Hnil _] | (prompt & apiKey' & info & imageURLs & _ & _ & _ & _ & Hrun)];
      cbn zeta in *; [rewrite Hnil in Hin; by apply elem_of_nil in Hin|].
    rewrite Hrun in Hin |- *. unfold exitCode.
    rewrite trace_bind in Hin. cbn [mapErr trace outcome] in Hin.
    rewrite callFALAPI_trace in Hin.
    apply elem_of_app in Hin as [Hin | Hin].
    + apply list_elem_of_singleton in Hin. injection Hin as -> -> ->.
      rewrite outcome_bind. cbn [mapErr outcome].
      rewrite callFALAPI_outcome, Hdo.
      destruct (Z.eqb_spec status 200) as [-> | Hne].
      * rewrite Hbody. unfold saveFirstImage. rewrite Hempty. by split_and!.
      * by split_and!.
    + destruct (outcome (callFALAPI _ _ _ _)) as [e|r]; [by apply elem_of_nil in Hin|].
      apply elem_of_posted in Hin. rewrite saveFirstImage_posted in Hin.
      by apply elem_of_nil in Hin.
Qed.

(** C6, as the claim states it, fails at the status 201: the answer has
    a success status and its body decodes to an empty image list, but
    the run ends with an API error that shows the body, not with "No
    images returned". *)
Lemma empty_image_list_is_fatal_counterexample :
  let body := quoted "{'images': []}" in
  let run := runGenerate (sampleEnv 201 body) sampleFlags ["a cat"] in
  trace run =
    [HttpPost "https://fal.run/fal-ai/z-image/turbo" "secret"
       (JObject [("prompt", JString "a cat"); ("image_size", JString "landscape_4_3");
                 ("output_format", JString "png"); ("enable_safety_checker", JBool false)])]
  ∧ httpDo (sampleEnv 201 body) "https://fal.run/fal-ai/z-image/turbo" "secret"
      (JObject [("prompt", JString "a cat"); ("image_size", JString "landscape_4_3");
                ("output_format", JString "png"); ("enable_safety_checker", JBool false)])
    = Ok (201, Ok body)
  ∧ 200 ≤ 201 < 300
  ∧ unmarshalImageResponse body = Some {| Images := []; ResponseSeed := 0 |}
  ∧ outcome run = inl (CallFailed (APIError 201 body))
  ∧ outcome run ≠ inl NoImagesReturned
  ∧ stderrText (CallFailed (APIError 201 body)) ≠ stderrText NoImagesReturned.
Proof.
  cbv zeta.
  assert (outcome (runGenerate (sampleEnv 201 (quoted "{'images': []}")) sampleFlags ["a cat"])
          = inl (CallFailed (APIError 201 (quoted "{'images': []}")))) as Hout
    by (vm_compute; reflexivity).
  refine (conj _ (conj _ (conj _ (conj _ (conj Hout (conj _ _)))))).
  - vm_compute. reflexivity.
  - reflexivity.
  - lia.
  - vm_compute. reflexivity.
  - rewrite Hout. discriminate.
  - vm_compute. discriminate.
Qed.

(** ** Size directive *)

Lemma readImages_ok (env : Env) (paths : list string) (i : Z) (acc : list string) :
  Forall (λ path, ∃ data, osReadFile env path = Ok data) paths →
  ∃ uris, readImages env i paths acc = ret (acc ++ uris).
Proof.
  intros Hall. revert i acc.
  induction Hall as [|p paths [data Hp] _ IH]; intros i acc; cbn [readImages].
  - exists []. by rewrite app_nil_r.
  - rewrite (imageToDataURI_Ok _ _ _ Hp).
    destruct (IH (i + 1)
                (acc ++ [dataURI (mimeTypeOf (ToLower env (Ext p)))
                           (Base64.EncodeToString data)]))
      as [uris ->].
    eexists (_ :: uris). by rewrite <- app_assoc.
Qed.

(** A run that gets past the checks and the reading of the images posts
    exactly the request built from its flags. *)
Lemma posted_when_built (env : Env) (entries : list (string * string)) (flags : Flags)
    (prompt : string) (rest : list string) (apiKey : string) (info : ModelInfo)
    (imageURLs : list string) :
  let edit := (0 <? length (inputImages flags))%nat in
  falKey env = Some apiKey →
  models !! resolveModel (model flags) = Some info →
  (if edit
   then EditPath info ≠ "" ∧ readImages env 0 (inputImages flags) [] = ret imageURLs
   else imageURLs = []) →
  posted (runGenerateIn env entries flags (prompt :: rest)) =
  [(falBaseURL +:+ "/" +:+ (if edit then EditPath info else GenPath info),
    marshal (requestOf env entries flags prompt info imageURLs))].
Proof.
  cbn zeta. intros Hkey Hinfo Hread.
  unfold runGenerateIn, getAPIKey. rewrite Hkey, bind_ret, Hinfo, bind_ret.
  destruct (0 <? length (inputImages flags))%nat.
  - destruct Hread as [Hedit%String.eqb_neq ->]. rewrite Hedit, !bind_ret.
    unfold posted. rewrite trace_bind, omap_app. cbn [mapErr trace outcome].
    rewrite callFALAPI_trace. cbn [omap list_omap app].
    destruct (outcome (callFALAPI _ _ _ _)) as [e|r]; [done|].
    fold (posted (saveFirstImage env flags r)). by rewrite saveFirstImage_posted.
  - subst imageURLs. rewrite !bind_ret.
    unfold posted. rewrite trace_bind, omap_app. cbn [mapErr trace outcome].
    rewrite callFALAPI_trace. cbn [omap list_omap app].
    unfold requestOf. rewrite setImageURLs_nil.
    destruct (outcome (callFALAPI _ _ _ _)) as [e|r]; [done|].
    fold (posted (saveFirstImage env flags r)). by rewrite saveFirstImage_posted.
Qed.

(** ** Nearest preset *)

(** The comparison of [SpecFloat] orders its values, apart from NaN. *)
Lemma SFcompare_antisym (x y : spec_float) :
  SFcompare y x = CompOpp <$> SFcompare x y.
Proof.
  destruct x as [[]|[]| |[] mx ex], y as [[]|[]| |[] my ey]; cbn; try reflexivity;
    rewrite (Z.compare_antisym ey ex); destruct (ey ?= ex); cbn; try reflexivity;
    change (Pos.compare_cont Eq ?a ?b) with (Pos.compare a b);
    rewrite (Pos.compare_antisym my mx); by destruct (my ?= mx)%positive.
Qed.

Lemma SFltb_irrefl (x : spec_float) : SFltb x x = false.
Proof.
  unfold SFltb. pose proof (SFcompare_antisym x x) as H.
  by destruct (SFcompare x x) as [[]|].
Qed.

Lemma SFltb_asym (x y : spec_float) : SFltb x y = true → SFltb y x = false.
Proof.
  unfold SFltb. rewrite (SFcompare_antisym x y).
  by destruct (SFcompare x y) as [[]|].
Qed.

Lemma SFltb_not_eqb (x y : spec_float) : SFltb x y = true → SFeqb y x = false.
Proof.
  unfold SFltb, SFeqb. rewrite (SFcompare_antisym x y).
  by destruct (SFcompare x y) as [[]|].
Qed.

(** Finite values of one sign compare by exponent, then by mantissa:
    every case of three comparisons is settled by arithmetic. *)
Ltac compare_cases ex ey ez mx my mz :=
  change (Pos.compare_cont Eq mx my) with (Pos.compare mx my);
  change (Pos.compare_cont Eq my mz) with (Pos.compare my mz);
  change (Pos.compare_cont Eq mx mz) with (Pos.compare mx mz);
  destruct (Z.compare_spec ex ey), (Z.compare_spec ey ez), (Z.compare_spec ex ez);
  try lia; try done;
  destruct (Pos.compare_spec mx my), (Pos.compare_spec my mz), (Pos.compare_spec mx mz);
  cbn; try lia; done.

Lemma SFltb_trans (x y z : spec_float) :
  SFltb x y = true → SFltb y z = true → SFltb x z = true.
Proof.
  unfold SFltb.
  destruct x as [[]|[]| |[] mx ex], y as [[]|[]| |[] my ey], z as [[]|[]| |[] mz ez];
    cbn; try done; compare_cases ex ey ez mx my mz.
Qed.

Lemma SFeqb_ltb_trans (x y z : spec_float) :
  SFeqb x y = true → SFltb y z = true → SFltb x z = true.
Proof.
  unfold SFltb, SFeqb.
  destruct x as [[]|[]| |[] mx ex], y as [[]|[]| |[] my ey], z as [[]|[]| |[] mz ez];
    cbn; try done; compare_cases ex ey ez mx my mz.
Qed.

(** The loop of [getClosestPreset]: either no entry's difference is below
    the initial [closestDiff] and the initial pair is returned, or the
    first entry of least difference is returned: no entry has a smaller
    difference and no earlier entry has an equal one. *)
Lemma closest_loop (ratio : Float64.float64) (presets : list (string * Float64.float64))
    (acc : string * Float64.float64) :
  let result := foldl (closestStep ratio) acc presets in
  (result = acc
   ∧ Forall (λ q, Float64.ltb (diffTo ratio q.2) acc.2 = false) presets)
  ∨ ∃ before p after,
      presets = before ++ p :: after
      ∧ result = (p.1, diffTo ratio p.2)
      ∧ Float64.ltb (diffTo ratio p.2) acc.2 = true
      ∧ Forall (λ q, Float64.ltb (diffTo ratio q.2) (diffTo ratio p.2) = false) presets
      ∧ Forall (λ q, SFeqb (diffTo ratio q.2) (diffTo ratio p.2) = false) before.
Proof.
  cbn zeta. revert acc. induction presets as [|x presets IH]; intros acc.
  - left. by split.
  - cbn [foldl]. unfold Float64.ltb in *.
    assert (Hstep : closestStep ratio acc x =
                    if SFltb (diffTo ratio x.2) acc.2 then (x.1, diffTo ratio x.2) else acc)
      by reflexivity.
    rewrite Hstep. clear Hstep.
    destruct (SFltb (diffTo ratio x.2) acc.2) eqn:Hx.
    + destruct (IH (x.1, diffTo ratio x.2)) as [[-> Hall] | (before & p & after & -> & -> & Hp & Hall & Hbefore)];
        cbn [fst snd] in *.
      * right. exists [], x, presets. split_and!; try done.
        constructor; [apply SFltb_irrefl | done].
      * right. exists (x :: before), p, after. split_and!; try done.
        -- by apply (SFltb_trans _ (diffTo ratio x.2)).
        -- constructor; [by apply SFltb_asym | done].
        -- constructor; [by apply SFltb_not_eqb | done].
    + destruct (IH acc) as [[-> Hall] | (before & p & after & -> & -> & Hp & Hall & Hbefore)].
      * left. split; [done|]. by constructor.
      * right. exists (x :: before), p, after. split_and!; try done.
        -- constructor; [|done].
           destruct (SFltb (diffTo ratio x.2) (diffTo ratio p.2)) eqn:Hlt; [|done].
           by rewrite (SFltb_trans _ _ _ Hlt Hp) in Hx.
        -- constructor; [|done].
           destruct (SFeqb (diffTo ratio x.2) (diffTo ratio p.2)) eqn:Heq; [|done].
           by rewrite (SFeqb_ltb_trans _ _ _ Heq Hp) in Hx.
Qed.

(** X2: a width or a height of zero gives [square_hd]. *)
Lemma getClosestPreset_degenerate (width height : Z) :
  (width = 0 ∨ height = 0) → getClosestPreset width height = "square_hd".
Proof.
  intros [-> | ->]; unfold getClosestPreset; [done|].
  by rewrite orb_true_r.
Qed.

Lemma getClosestPreset_loop (width height : Z) :
  width ≠ 0 → height ≠ 0 →
  getClosestPreset width height =
  (foldl (closestStep (Float64.div (Float64.of_int width) (Float64.of_int height)))
         closestInit aspectPresets).1.
Proof.
  intros Hw%Z.eqb_neq Hh%Z.eqb_neq. unfold getClosestPreset. by rewrite Hw, Hh.
Qed.

(** X1: where some preset is nearer than 999 to the ratio, the result is
    the first preset of least difference in the order of [aspectPresets]:
    no preset has a smaller difference and no earlier one an equal one. *)
Lemma getClosestPreset_nearest (width height : Z) :
  width ≠ 0 → height ≠ 0 →
  let ratio := Float64.div (Float64.of_int width) (Float64.of_int height) in
  Exists (λ q, Float64.ltb (diffTo ratio q.2) (Float64.of_int 999) = true) aspectPresets →
  ∃ before p after,
    aspectPresets = before ++ p :: after
    ∧ getClosestPreset width height = p.1
    ∧ Forall (λ q, Float64.ltb (diffTo ratio q.2) (diffTo ratio p.2) = false) aspectPresets
    ∧ Forall (λ q, SFeqb (diffTo ratio q.2) (diffTo ratio p.2) = false) before.
Proof.
  intros Hw Hh. rewrite (getClosestPreset_loop width height Hw Hh).
  generalize (Float64.div (Float64.of_int width) (Float64.of_int height)).
  intros ratio. cbn zeta. intros Hex.
  destruct (closest_loop ratio aspectPresets closestInit)
    as [[_ Hall] | (before & p & after & Heq & Hres & _ & Hall & Hbefore)].
  - exfalso. apply Exists_exists in Hex as (q & Hq & Hlt).
    rewrite Forall_forall in Hall. specialize (Hall q Hq).
    change (closestInit.2) with (Float64.of_int 999) in Hall.
    rewrite Hall in Hlt. discriminate Hlt.
  - exists before, p, after. split; [exact Heq|]. split; [by rewrite Hres|].
    split; [exact Hall | exact Hbefore].
Qed.

(** X3: where no preset is nearer than 999 to the ratio, the result is
    the initial [square_hd]. *)
Lemma getClosestPreset_far (width height : Z) :
  width ≠ 0 → height ≠ 0 →
  let ratio := Float64.div (Float64.of_int width) (Float64.of_int height) in
  Forall (λ q, Float64.ltb (diffTo ratio q.2) (Float64.of_int 999) = false) aspectPresets →
  getClosestPreset width height = "square_hd".
Proof.
  intros Hw Hh. rewrite (getClosestPreset_loop width height Hw Hh).
  generalize (Float64.div (Float64.of_int width) (Float64.of_int height)).
  intros ratio. cbn zeta. intros Hall.
  destruct (closest_loop ratio aspectPresets closestInit)
    as [[Hres _] | (before & p & after & Heq & _ & Hlt & _)]; [by rewrite Hres|].
  exfalso. rewrite Forall_forall in Hall.
  assert (Hp : p ∈ aspectPresets).
  { rewrite Heq. apply elem_of_app. right. apply list_elem_of_here. }
  specialize (Hall p Hp).
  change (closestInit.2) with (Float64.of_int 999) in Hlt.
  rewrite Hall in Hlt. discriminate Hlt.
Qed.

(** C3 (what the code does at 2000 by 1): every preset is at least 999
    away from the ratio 2000, so the loop never replaces the initial
    [square_hd], although [landscape_16_9] is strictly nearer to the ratio
    than [square_hd] is; an edit with [qwen] of a picture of 2000 by 1
    pixels asks for [square_hd]. *)
Theorem getClosestPreset_sentinel :
  let ratio := Float64.div (Float64.of_int 2000) (Float64.of_int 1) in
  getClosestPreset 2000 1 = "square_hd"
  ∧ Forall (λ q, Float64.ltb (diffTo ratio q.2) (Float64.of_int 999) = false) aspectPresets
  ∧ (∃ r, ("landscape_16_9", r) ∈ aspectPresets
          ∧ Float64.ltb (diffTo ratio r) (diffTo ratio (Float64.of_int 1)) = true)
  ∧ getClosestRatio 2000 1 = "1:1"
  ∧ posted (runGenerate (sampleEnvOf (2000, 1) 200 oneImage)
              (editFlags "qwen" (-1) ["photo.PNG"]) ["add sunglasses"]) =
    [("https://fal.run/fal-ai/qwen-image-edit-plus",
      JObject [("prompt", JString "add sunglasses"); ("image_size", JString "square_hd");
               ("output_format", JString "png");
               ("image_urls", JArray [JString "data:image/png;base64,Ynl0ZXM="]);
               ("enable_safety_checker", JBool false)])].
Proof.
  cbn zeta. refine (conj _ (conj _ (conj _ (conj _ _)))).
  - vm_compute. reflexivity.
  - unfold aspectPresets.
    repeat (apply List.Forall_cons; [vm_compute; reflexivity|]). apply List.Forall_nil.
  - exists (Float64.div (Float64.of_int 16) (Float64.of_int 9)).
    split; [do 4 apply list_elem_of_further; apply list_elem_of_here|].
    vm_compute. reflexivity.
  - vm_compute. reflexivity.
  - vm_compute. reflexivity.
Qed.

Lemma getClosestPreset_degenerate_witness : getClosestPreset 0 1080 = "square_hd".
Proof. apply getClosestPreset_degenerate. left. reflexivity. Defined.

Lemma getClosestPreset_nearest_witness :
  ∃ before p after,
    aspectPresets = before ++ p :: after
    ∧ getClosestPreset 1920 1080 = p.1
    ∧ Forall (λ q, Float64.ltb
                     (diffTo (Float64.div (Float64.of_int 1920) (Float64.of_int 1080)) q.2)
                     (diffTo (Float64.div (Float64.of_int 1920) (Float64.of_int 1080)) p.2)
                   = false) aspectPresets
    ∧ Forall (λ q, SFeqb
                     (diffTo (Float64.div (Float64.of_int 1920) (Float64.of_int 1080)) q.2)
                     (diffTo (Float64.div (Float64.of_int 1920) (Float64.of_int 1080)) p.2)
                   = false) before.
Proof.
  apply (getClosestPreset_nearest 1920 1080).
  - lia.
  - lia.
  - unfold aspectPresets. apply List.Exists_cons_hd. vm_compute. reflexivity.
Defined.

Lemma getClosestPreset_far_witness : getClosestPreset 2000 1 = "square_hd".
Proof.
  apply (getClosestPreset_far 2000 1).
  - lia.
  - lia.
  - unfold aspectPresets.
    repeat (apply List.Forall_cons; [vm_compute; reflexivity|]). apply List.Forall_nil.
Defined.

(** ** The properties at sample inputs *)

Example resolve_flux2 : models !! resolveModel "flux2" = models !! resolveModel "flux2-pro".
Proof. vm_compute. reflexivity. Qed.

Example generate_default_request :
  posted (runGenerate (sampleEnv 200 oneImage) sampleFlags ["a cat"]) =
  [("https://fal.run/fal-ai/z-image/turbo",
    JObject [("prompt", JString "a cat"); ("image_size", JString "landscape_4_3");
             ("output_format", JString "png"); ("enable_safety_checker", JBool false)])].
Proof. vm_compute. reflexivity. Qed.

Example edit_auto_request :
  posted (runGenerate (sampleEnv 200 oneImage) (editFlags "nano-banana-pro" 42 ["photo.PNG"])
            ["add sunglasses"]) =
  [("https://fal.run/fal-ai/nano-banana-pro/edit",
    JObject [("prompt", JString "add sunglasses"); ("aspect_ratio", JString "auto");
             ("output_format", JString "png");
             ("image_urls", JArray [JString "data:image/png;base64,Ynl0ZXM="]);
             ("seed", JNumber "42"); ("enable_safety_checker", JBool false)])].
Proof. vm_compute. reflexivity. Qed.

Example edit_measured_request :
  posted (runGenerate (sampleEnv 200 oneImage) (editFlags "qwen" (-1) ["photo.PNG"])
            ["add sunglasses"]) =
  [("https://fal.run/fal-ai/qwen-image-edit-plus",
    JObject [("prompt", JString "add sunglasses"); ("image_size", JString "landscape_16_9");
             ("output_format", JString "png");
             ("image_urls", JArray [JString "data:image/png;base64,Ynl0ZXM="]);
             ("enable_safety_checker", JBool false)])].
Proof. vm_compute. reflexivity. Qed.


Lemma seed_sent_iff_nonnegative_witness :
  member "seed"
    (JObject [("prompt", JString "a cat"); ("image_size", JString "landscape_4_3");
              ("output_format", JString "png"); ("seed", JNumber "42");
              ("enable_safety_checker", JBool false)])
  = Some (JNumber "42").
Proof.
  refine (proj2 (proj2 (proj2 (proj2
    (seed_sent_iff_nonnegative (sampleEnv 200 oneImage) (map_to_list ratioToPreset)
       (editFlags "z-turbo" 42 []) ["a cat"] "https://fal.run/fal-ai/z-image/turbo" _ _)))) _).
  - vm_compute. apply list_elem_of_here.
  - reflexivity.
Defined.

Lemma edit_images_become_data_uris_witness :
  imageToDataURI (sampleEnv 200 oneImage) "photo.PNG" = Ok "data:image/png;base64,Ynl0ZXM="
  ∧ (∃ uris,
       Forall2 (λ path uri, imageToDataURI (sampleEnv 200 oneImage) path = Ok uri)
         ["photo.PNG"] uris
       ∧ member "image_urls"
           (JObject [("prompt", JString "add sunglasses");
                     ("image_size", JString "landscape_16_9");
                     ("output_format", JString "png");
                     ("image_urls", JArray [JString "data:image/png;base64,Ynl0ZXM="]);
                     ("enable_safety_checker", JBool false)])
         = Some (JArray (JString <$> uris)))
  ∧ outcome (runGenerateIn (sampleEnv 200 oneImage) (map_to_list ratioToPreset)
               (editFlags "qwen" (-1) ["photo.PNG"; "missing.png"]) ["add sunglasses"])
    = inl (ImageReadError 2 "missing.png" "no such file").
Proof.
  refine (conj _ (conj _ _)).
  - refine (proj1 (proj2 (proj2 (proj2
      (edit_images_become_data_uris (sampleEnv 200 oneImage) (map_to_list ratioToPreset)
         (editFlags "qwen" (-1) ["photo.PNG"]) "add sunglasses" []
         "secret" qwenInfo _ _ _ _)))) "photo" ".PNG" "image/png" "bytes" _ _).
    + reflexivity.
    + vm_compute. reflexivity.
    + discriminate.
    + discriminate.
    + by_decide.
    + reflexivity.
  - refine (proj1 (proj2 (proj2 (proj2 (proj2 (proj2 (proj2 (proj2
      (edit_images_become_data_uris (sampleEnv 200 oneImage) (map_to_list ratioToPreset)
         (editFlags "qwen" (-1) ["photo.PNG"]) "add sunglasses" []
         "secret" qwenInfo _ _ _ _))))))))
      "https://fal.run/fal-ai/qwen-image-edit-plus" _ _).
    + reflexivity.
    + vm_compute. reflexivity.
    + discriminate.
    + discriminate.
    + vm_compute. apply list_elem_of_here.
  - refine (proj1 (proj2 (proj2 (proj2 (proj2 (proj2 (proj2 (proj2 (proj2
      (edit_images_become_data_uris (sampleEnv 200 oneImage) (map_to_list ratioToPreset)
         (editFlags "qwen" (-1) ["photo.PNG"; "missing.png"]) "add sunglasses" []
         "secret" qwenInfo _ _ _ _)))))))) ["photo.PNG"] "missing.png" [] "no such file"
      _ _ _)).
    + reflexivity.
    + vm_compute. reflexivity.
    + discriminate.
    + discriminate.
    + reflexivity.
    + repeat constructor. by exists "bytes".
    + reflexivity.
Defined.

Lemma at_most_one_size_field_witness :
  ¬ ("image_size" ∈ keys (JObject [("prompt", JString "add sunglasses");
                                    ("aspect_ratio", JString "auto");
                                    ("output_format", JString "png");
                                    ("image_urls", JArray [JString "data:image/png;base64,Ynl0ZXM="]);
                                    ("seed", JNumber "42");
                                    ("enable_safety_checker", JBool false)])
     ∧ "aspect_ratio" ∈ keys (JObject [("prompt", JString "add sunglasses");
                                        ("aspect_ratio", JString "auto");
                                        ("output_format", JString "png");
                                        ("image_urls", JArray [JString "data:image/png;base64,Ynl0ZXM="]);
                                        ("seed", JNumber "42");
                                        ("enable_safety_checker", JBool false)])).
Proof.
  refine (proj1
    (at_most_one_size_field (sampleEnv 200 oneImage) (map_to_list ratioToPreset)
       (editFlags "nano-banana-pro" 42 ["photo.PNG"]) ["add sunglasses"]
       "https://fal.run/fal-ai/nano-banana-pro/edit" _ _)).
  vm_compute. apply list_elem_of_here.
Defined.

(** * Further properties of the program *)

(** ** The preset of a picture *)

Lemma aspectPresets_names :
  aspectPresets.*1 =
  ["portrait_16_9"; "portrait_4_3"; "square_hd"; "landscape_4_3"; "landscape_16_9"].
Proof. reflexivity. Qed.

Lemma getClosestPreset_names (width height : Z) :
  getClosestPreset width height ∈
  ["portrait_16_9"; "portrait_4_3"; "square_hd"; "landscape_4_3"; "landscape_16_9"].
Proof.
  unfold getClosestPreset.
  destruct ((width =? 0) || (height =? 0))%bool; [set_solver|].
  cbv zeta.
  destruct (closest_loop (Float64.div (Float64.of_int width) (Float64.of_int height))
              aspectPresets closestInit) as [[-> _]|(before & p & after & Hp & -> & _)].
  - change (closestInit.1) with "square_hd". set_solver.
  - rewrite <- aspectPresets_names. apply list_elem_of_fmap. exists p. split; [done|].
    rewrite Hp. set_solver.
Qed.

(** A preset name is ASCII: [json.Marshal] writes it as it is. *)
Lemma getClosestPreset_marshalString (width height : Z) :
  marshalString (getClosestPreset width height) = getClosestPreset width height.
Proof.
  pose proof (getClosestPreset_names width height) as Hp. revert Hp.
  generalize (getClosestPreset width height). intros p Hp.
  repeat (apply elem_of_cons in Hp as [->|Hp]; [reflexivity|]).
  by apply elem_of_nil in Hp.
Qed.

Lemma parseSize_presetToRatio (p : string) :
  p ∈ ["portrait_16_9"; "portrait_4_3"; "square_hd"; "landscape_4_3"; "landscape_16_9"] →
  let r := presetToRatio (map_to_list ratioToPreset) p in
  r ∈ ["9:16"; "3:4"; "1:1"; "4:3"; "16:9"]
  ∧ parseSize r = p
  ∧ aspectRatioSupported !! r = Some true.
Proof.
  intros Hp r. subst r.
  repeat (apply elem_of_cons in Hp as [->|Hp];
          [match goal with
           | |- context [presetToRatio ?e ?p] =>
               let v := eval vm_compute in (presetToRatio e p) in
               replace (presetToRatio e p) with v by (vm_compute; reflexivity)
           end;
           split; [set_solver|split; vm_compute; reflexivity]|]).
  by apply elem_of_nil in Hp.
Qed.

(** X4: whatever the width and the height, also zero or negative ones,
    [getClosestPreset] returns one of the five preset names, each of
    which is a value of [ratioToPreset]. *)
Theorem getClosestPreset_range (width height : Z) :
  getClosestPreset width height ∈
    ["portrait_16_9"; "portrait_4_3"; "square_hd"; "landscape_4_3"; "landscape_16_9"]
  ∧ ∃ ratio, ratioToPreset !! ratio = Some (getClosestPreset width height).
Proof.
  pose proof (getClosestPreset_names width height) as Hp.
  split; [done|].
  destruct (parseSize_presetToRatio _ Hp) as (Hin & Hr & _).
  exists (presetToRatio (map_to_list ratioToPreset) (getClosestPreset width height)).
  revert Hin Hr. unfold parseSize.
  generalize (presetToRatio (map_to_list ratioToPreset) (getClosestPreset width height)).
  intros r Hin Hr.
  destruct (ratioToPreset !! r) as [q|] eqn:Hq; [by rewrite Hr|].
  exfalso. clear Hr Hp.
  repeat (apply elem_of_cons in Hin as [->|Hin]; [vm_compute in Hq; discriminate Hq|]).
  by apply elem_of_nil in Hin.
Qed.

(** X5: the ratio [getClosestRatio] gives for a picture is one of the five
    keys of [ratioToPreset], in whatever order the map is iterated;
    [parseSize] maps it back to the preset [getClosestPreset] chose, and
    it is a ratio [aspectRatioSupported] lists. *)
Theorem getClosestRatio_names_closest_preset
    (entries : list (string * string)) (width height : Z) :
  entries ≡ₚ map_to_list ratioToPreset →
  getClosestRatioIn entries width height ∈ ["9:16"; "3:4"; "1:1"; "4:3"; "16:9"]
  ∧ parseSize (getClosestRatioIn entries width height) = getClosestPreset width height
  ∧ aspectRatioSupported !! getClosestRatioIn entries width height = Some true.
Proof.
  intros Hentries. unfold getClosestRatioIn.
  rewrite (presetToRatio_order _ _ Hentries).
  apply parseSize_presetToRatio, getClosestPreset_names.
Qed.

Lemma getClosestRatio_names_closest_preset_witness :
  getClosestRatioIn [("16:9", "landscape_16_9"); ("4:3", "landscape_4_3");
                     ("1:1", "square_hd"); ("3:4", "portrait_4_3");
                     ("9:16", "portrait_16_9")] 1080 1920
    ∈ ["9:16"; "3:4"; "1:1"; "4:3"; "16:9"]
  ∧ parseSize (getClosestRatioIn [("16:9", "landscape_16_9"); ("4:3", "landscape_4_3");
                                  ("1:1", "square_hd"); ("3:4", "portrait_4_3");
                                  ("9:16", "portrait_16_9")] 1080 1920)
    = getClosestPreset 1080 1920
  ∧ aspectRatioSupported !! getClosestRatioIn [("16:9", "landscape_16_9"); ("4:3", "landscape_4_3");
                                  ("1:1", "square_hd"); ("3:4", "portrait_4_3");
                                  ("9:16", "portrait_16_9")] 1080 1920 = Some true.
Proof.
  apply getClosestRatio_names_closest_preset.
  by_decide.
Defined.

(** ** The registry and the request *)

Lemma models_cases (name : string) (info : ModelInfo) :
  models !! name = Some info →
  (name, info) ∈
    [("z-turbo", Build_ModelInfo "fal-ai/z-image/turbo" "" false "image_size");
     ("qwen", Build_ModelInfo "fal-ai/qwen-image" "fal-ai/qwen-image-edit-plus" false "image_size");
     ("flux2-pro", Build_ModelInfo "fal-ai/flux-2-pro" "fal-ai/flux-2-pro/edit" true "image_size");
     ("flux2-flex", Build_ModelInfo "fal-ai/flux-2-flex" "fal-ai/flux-2-flex/edit" true "image_size");
     ("nano-banana", Build_ModelInfo "fal-ai/nano-banana" "fal-ai/nano-banana/edit" true "aspect_ratio");
     ("nano-banana-pro",
      Build_ModelInfo "fal-ai/nano-banana-pro" "fal-ai/nano-banana-pro/edit" true "aspect_ratio")].
Proof. intros Hinfo. by apply elem_of_list_to_map_2 in Hinfo. Qed.

(** What holds of every entry of [models]. *)
Lemma models_invariants (name : string) (info : ModelInfo) :
  models !! name = Some info →
  GenPath info ≠ ""
  ∧ (SizeParamName info = "image_size" ∨ SizeParamName info = "aspect_ratio")
  ∧ (SupportsAutoImgSize info = false → SizeParamName info = "image_size")
  ∧ (EditPath info = "" ↔ name = "z-turbo").
Proof.
  intros Hin%models_cases.
  repeat (apply elem_of_cons in Hin as [[= -> ->]|Hin];
          [cbn; split_and!; [done|(by left) || (by right)|done|done]|]).
  by apply elem_of_nil in Hin.
Qed.

Lemma requestOf_fields (env : Env) (entries : list (string * string)) (flags : Flags)
    (prompt : string) (info : ModelInfo) (imageURLs : list string) :
  let req := requestOf env entries flags prompt info imageURLs in
  let sized := setSizeParam info
                 (sizeValueFor env entries info (size flags) (inputImages flags))
                 (newRequest prompt (format flags)) in
  Prompt req = prompt
  ∧ ImageSize req = ImageSize sized
  ∧ AspectRatio req = AspectRatio sized
  ∧ OutputFormat req = format flags
  ∧ ImageURLs req = imageURLs
  ∧ EnableSafetyChecker req = false.
Proof.
  cbn zeta. unfold requestOf, setImageURLs, setSeed, setSizeParam.
  by repeat case_match.
Qed.

Lemma member_prompt (req : ImageRequest) :
  member "prompt" (marshal req) = Some (JString (marshalString (Prompt req))).
Proof. reflexivity. Qed.

Lemma member_output_format (req : ImageRequest) :
  member "output_format" (marshal req) =
  if String.eqb (OutputFormat req) "" then None
  else Some (JString (marshalString (OutputFormat req))).
Proof.
  unfold member, marshal, marshalMembers, marshalImageSize, omitEmptyString.
  by repeat case_match.
Qed.

Lemma member_enable_safety_checker (req : ImageRequest) :
  member "enable_safety_checker" (marshal req) = Some (JBool (EnableSafetyChecker req)).
Proof.
  unfold member, marshal, marshalMembers, marshalImageSize, omitEmptyString.
  by repeat case_match.
Qed.

Lemma keys_marshal_sublist (req : ImageRequest) :
  keys (marshal req) `sublist_of`
    ["prompt"; "image_size"; "aspect_ratio"; "output_format"; "image_urls"; "seed";
     "enable_safety_checker"].
Proof.
  unfold keys, marshal, marshalMembers, marshalImageSize, omitEmptyString.
  repeat case_match; cbn; repeat (apply sublist_skip || apply sublist_cons || apply sublist_nil).
Qed.

(** X6: in edit mode without an explicit size, with a model that does not
    support [auto], the posted request names as [image_size] the preset
    [getClosestPreset] chooses for the decoded dimensions of the first
    input image, in whatever order [ratioToPreset] is iterated, and has
    no [aspect_ratio]. *)
Theorem measured_edit_sends_closest_preset
    (env : Env) (entries : list (string * string)) (flags : Flags) (args : list string)
    (url : string) (payload : json) (info : ModelInfo) (first : string) (others : list string)
    (width height : Z) :
  entries ≡ₚ map_to_list ratioToPreset →
  models !! resolveModel (model flags) = Some info →
  SupportsAutoImgSize info = false →
  (size flags = "" ∨ size flags = "auto") →
  inputImages flags = first :: others →
  imageDecodeConfig env first = Ok (width, height) →
  (url, payload) ∈ posted (runGenerateIn env entries flags args) →
  member "image_size" payload = Some (JString (getClosestPreset width height))
  ∧ ("aspect_ratio" ∉ keys payload).
Proof.
  intros Hentries Hinfo Hauto Hsize Himages Hdecode
    (prompt & info' & imageURLs & _ & Hinfo' & _ & _ & ->)%posted_request.
  rewrite Hinfo in Hinfo'. injection Hinfo' as <-.
  destruct (models_invariants _ _ Hinfo) as (_ & _ & Hparam & _).
  specialize (Hparam Hauto).
  destruct (requestOf_fields env entries flags prompt info imageURLs) as (_ & Hi & Ha & _).
  cbv zeta in Hi, Ha.
  rewrite <- member_None_keys, member_image_size, member_aspect_ratio, Hi, Ha.
  assert (sizeValueFor env entries info (size flags) (inputImages flags)
          = getClosestRatioIn entries width height) as ->.
  { unfold sizeValueFor, getImageDimensions.
    rewrite Himages, Hauto, Hdecode. by destruct Hsize as [-> | ->]. }
  unfold getClosestRatioIn. rewrite (presetToRatio_order _ _ Hentries).
  destruct (parseSize_presetToRatio _ (getClosestPreset_names width height))
    as (Hin & Hparse & _).
  cbv zeta in Hin, Hparse. revert Hin Hparse.
  generalize (presetToRatio (map_to_list ratioToPreset) (getClosestPreset width height)).
  intros ratio Hin Hparse.
  unfold setSizeParam. rewrite Hparam.
  change (String.eqb "image_size" "aspect_ratio") with false. cbv iota.
  assert (String.eqb ratio "" = false ∧ String.eqb ratio "auto" = false) as [-> ->].
  { repeat (apply elem_of_cons in Hin as [->|Hin]; [done|]). by apply elem_of_nil in Hin. }
  cbn. by rewrite Hparse, getClosestPreset_marshalString.
Qed.

Lemma measured_edit_sends_closest_preset_witness :
  member "image_size"
    (JObject [("prompt", JString "add sunglasses"); ("image_size", JString "landscape_16_9");
              ("output_format", JString "png");
              ("image_urls", JArray [JString "data:image/png;base64,Ynl0ZXM="]);
              ("enable_safety_checker", JBool false)])
    = Some (JString (getClosestPreset 1920 1080))
  ∧ ("aspect_ratio" ∉
       keys (JObject [("prompt", JString "add sunglasses");
                      ("image_size", JString "landscape_16_9");
                      ("output_format", JString "png");
                      ("image_urls", JArray [JString "data:image/png;base64,Ynl0ZXM="]);
                      ("enable_safety_checker", JBool false)])).
Proof.
  apply (measured_edit_sends_closest_preset (sampleEnv 200 oneImage)
           (map_to_list ratioToPreset) (editFlags "qwen" (-1) ["photo.PNG"])
           ["add sunglasses"] "https://fal.run/fal-ai/qwen-image-edit-plus" _
           qwenInfo "photo.PNG" [] 1920 1080).
  - reflexivity.
  - vm_compute. reflexivity.
  - reflexivity.
  - left. reflexivity.
  - reflexivity.
  - reflexivity.
  - vm_compute. apply list_elem_of_here.
Defined.

(** X7: every request the program posts has the first argument as
    [prompt] and the format flag as [output_format] (no [output_format]
    when the flag is empty), each as [json.Marshal] writes a string: as
    it is when it is valid UTF-8, with U+FFFD in place of every byte
    that is not part of a well-formed sequence otherwise, so that every
    string sent is valid UTF-8.  The request has
    [enable_safety_checker: false], no [image_urls] in generate mode,
    and no member other than the seven of [ImageRequest], in the order
    of the struct's fields. *)
Theorem posted_request_members
    (env : Env) (entries : list (string * string)) (flags : Flags) (args : list string)
    (url : string) (payload : json) :
  (url, payload) ∈ posted (runGenerateIn env entries flags args) →
  (∃ prompt,
     head args = Some prompt
     ∧ member "prompt" payload = Some (JString (marshalString prompt))
     ∧ (ValidString prompt = true → member "prompt" payload = Some (JString prompt)))
  ∧ member "enable_safety_checker" payload = Some (JBool false)
  ∧ member "output_format" payload =
      (if String.eqb (format flags) "" then None
       else Some (JString (marshalString (format flags))))
  ∧ (ValidString (format flags) = true →
       member "output_format" payload =
       (if String.eqb (format flags) "" then None else Some (JString (format flags))))
  ∧ (inputImages flags = [] → "image_urls" ∉ keys payload)
  ∧ keys payload `sublist_of`
      ["prompt"; "image_size"; "aspect_ratio"; "output_format"; "image_urls"; "seed";
       "enable_safety_checker"]
  ∧ (∀ s, ValidString (marshalString s) = true)
  ∧ marshalString (String "c" (String "a" (String "f" (String "255" "")))) =
      String "c" (String "a" (String "f" (String "239" (String "191" (String "189" ""))))).
Proof.
  intros (prompt & info & imageURLs & Hargs & _ & Hread & _ & ->)%posted_request.
  destruct (requestOf_fields env entries flags prompt info imageURLs)
    as (Hp & _ & _ & Hf & Hu & Hs).
  cbv zeta in Hp, Hf, Hu, Hs.
  refine (conj _ (conj _ (conj _ (conj _ (conj _ (conj _ (conj _ _))))))).
  - exists prompt. rewrite member_prompt, Hp. split; [done|]. split; [done|].
    intros Hvalid. by rewrite (marshalString_valid _ Hvalid).
  - by rewrite member_enable_safety_checker, Hs.
  - by rewrite member_output_format, Hf.
  - intros Hvalid. by rewrite member_output_format, Hf, (marshalString_valid _ Hvalid).
  - intros Himages. rewrite Himages in Hread. cbn in Hread. subst imageURLs.
    by rewrite <- member_None_keys, member_image_urls, Hu.
  - apply keys_marshal_sublist.
  - apply ValidString_marshalString.
  - reflexivity.
Qed.

Lemma posted_request_members_witness :
  let payload :=
    JObject [("prompt", JString "a cat"); ("image_size", JString "landscape_4_3");
             ("output_format", JString "png"); ("enable_safety_checker", JBool false)] in
  (∃ prompt, head ["a cat"] = Some prompt
             ∧ member "prompt" payload = Some (JString (marshalString prompt))
             ∧ (ValidString prompt = true → member "prompt" payload = Some (JString prompt)))
  ∧ member "enable_safety_checker" payload = Some (JBool false)
  ∧ member "output_format" payload = Some (JString "png").
Proof.
  cbv zeta.
  pose proof (posted_request_members (sampleEnv 200 oneImage) (map_to_list ratioToPreset)
                sampleFlags ["a cat"] "https://fal.run/fal-ai/z-image/turbo"
                (JObject [("prompt", JString "a cat"); ("image_size", JString "landscape_4_3");
                          ("output_format", JString "png");
                          ("enable_safety_checker", JBool false)]))
    as Hmembers.
  refine (conj (proj1 (Hmembers _))
            (conj (proj1 (proj2 (Hmembers _)))
               (proj1 (proj2 (proj2 (proj2 (Hmembers _)))) _))).
  - vm_compute. apply list_elem_of_here.
  - vm_compute. apply list_elem_of_here.
  - vm_compute. apply list_elem_of_here.
  - reflexivity.
Defined.

(** X8: for a model whose size parameter is [aspect_ratio], every posted
    request has an [aspect_ratio] and no [image_size]: the size flag when
    it is set and not [auto] (as [json.Marshal] writes it: as it is when
    it is valid UTF-8, with U+FFFD for every other byte otherwise), else
    [auto] in edit mode and [4:3] in generate mode; the dimensions of the
    input image are never used. *)
Theorem aspect_ratio_models_always_send_ratio
    (env : Env) (entries : list (string * string)) (flags : Flags) (args : list string)
    (url : string) (payload : json) (info : ModelInfo) :
  models !! resolveModel (model flags) = Some info →
  SizeParamName info = "aspect_ratio" →
  (url, payload) ∈ posted (runGenerateIn env entries flags args) →
  ("image_size" ∉ keys payload)
  ∧ ("aspect_ratio" ∈ keys payload)
  ∧ (size flags ≠ "" → size flags ≠ "auto" →
       member "aspect_ratio" payload = Some (JString (marshalString (size flags)))
       ∧ (ValidString (size flags) = true →
            member "aspect_ratio" payload = Some (JString (size flags))))
  ∧ ((size flags = "" ∨ size flags = "auto") → inputImages flags ≠ [] →
       member "aspect_ratio" payload = Some (JString "auto"))
  ∧ ((size flags = "" ∨ size flags = "auto") → inputImages flags = [] →
       member "aspect_ratio" payload = Some (JString "4:3")).
Proof.
  intros Hinfo Hparam
    (prompt & info' & imageURLs & _ & Hinfo' & _ & _ & ->)%posted_request.
  rewrite Hinfo in Hinfo'. injection Hinfo' as <-.
  destruct (models_invariants _ _ Hinfo) as (_ & _ & Hauto & _).
  assert (SupportsAutoImgSize info = true) as Hsupports.
  { destruct (SupportsAutoImgSize info); [done|].
    rewrite Hauto in Hparam by done. discriminate Hparam. }
  destruct (requestOf_fields env entries flags prompt info imageURLs) as (_ & Hi & Ha & _).
  cbv zeta in Hi, Ha.
  assert (AspectRatio (requestOf env entries flags prompt info imageURLs) =
          if negb (String.eqb (size flags) "") && negb (String.eqb (size flags) "auto")
          then size flags
          else match inputImages flags with [] => "4:3" | _ => "auto" end) as Hratio.
  { rewrite Ha. unfold setSizeParam. rewrite Hparam.
    change (String.eqb "aspect_ratio" "aspect_ratio") with true. cbv iota.
    unfold sizeValueFor. rewrite Hsupports.
    destruct (String.eqb_spec (size flags) "") as [-> | Hne]; cbn [negb andb].
    - by destruct (inputImages flags).
    - destruct (String.eqb_spec (size flags) "auto") as [-> | Hnauto]; cbn [negb andb].
      + by destruct (inputImages flags).
      + apply String.eqb_neq in Hne. by rewrite Hne. }
  assert (ImageSize (requestOf env entries flags prompt info imageURLs) = SizeNil) as Hnil.
  { rewrite Hi. unfold setSizeParam. rewrite Hparam.
    change (String.eqb "aspect_ratio" "aspect_ratio") with true. cbv iota.
    destruct (String.eqb (sizeValueFor _ _ _ _ _) ""); reflexivity. }
  assert (AspectRatio (requestOf env entries flags prompt info imageURLs) ≠ "") as Hset.
  { rewrite Hratio.
    destruct (String.eqb_spec (size flags) "") as [-> | Hne]; cbn [negb andb];
      [by destruct (inputImages flags)|].
    destruct (String.eqb_spec (size flags) "auto") as [-> | Hnauto]; cbn [negb andb];
      [by destruct (inputImages flags)|done]. }
  refine (conj _ (conj _ (conj _ (conj _ _)))).
  - by rewrite <- member_None_keys, member_image_size, Hnil.
  - destruct (decide ("aspect_ratio" ∈ keys (marshal (requestOf env entries flags prompt
                                                         info imageURLs))))
      as [Hin | Hout]; [done|].
    apply member_None_keys in Hout. rewrite member_aspect_ratio in Hout.
    apply String.eqb_neq in Hset. by rewrite Hset in Hout.
  - intros Hne%String.eqb_neq Hnauto%String.eqb_neq.
    rewrite member_aspect_ratio. apply String.eqb_neq in Hset. rewrite Hset.
    rewrite Hratio, Hne, Hnauto. cbn [negb andb]. split; [done|].
    intros Hvalid. by rewrite (marshalString_valid _ Hvalid).
  - intros Hsize Himages.
    rewrite member_aspect_ratio. apply String.eqb_neq in Hset. rewrite Hset.
    rewrite Hratio. destruct (inputImages flags); [done|].
    by destruct Hsize as [-> | ->].
  - intros Hsize Himages.
    rewrite member_aspect_ratio. apply String.eqb_neq in Hset. rewrite Hset.
    rewrite Hratio, Himages. by destruct Hsize as [-> | ->].
Qed.

Lemma aspect_ratio_models_always_send_ratio_witness :
  member "aspect_ratio"
    (JObject [("prompt", JString "add sunglasses"); ("aspect_ratio", JString "auto");
              ("output_format", JString "png");
              ("image_urls", JArray [JString "data:image/png;base64,Ynl0ZXM="]);
              ("seed", JNumber "42"); ("enable_safety_checker", JBool false)])
  = Some (JString "auto").
Proof.
  refine (proj1 (proj2 (proj2 (proj2
    (aspect_ratio_models_always_send_ratio (sampleEnv 200 oneImage)
       (map_to_list ratioToPreset) (editFlags "nano-banana-pro" 42 ["photo.PNG"])
       ["add sunglasses"] "https://fal.run/fal-ai/nano-banana-pro/edit" _
       (Build_ModelInfo "fal-ai/nano-banana-pro" "fal-ai/nano-banana-pro/edit" true
          "aspect_ratio") _ _ _)))) _ _).
  - vm_compute. reflexivity.
  - reflexivity.
  - vm_compute. apply list_elem_of_here.
  - left. reflexivity.
  - discriminate.
Defined.

(** ** The network traffic of a run *)

Lemma saveFirstImage_trace (env : Env) (flags : Flags) (response : ImageResponse) :
  trace (saveFirstImage env flags response) =
  match Images response with
  | [] => []
  | first :: _ => [HttpGet (URL first)]
  end.
Proof.
  unfold saveFirstImage, downloadImage.
  destruct (Images response); [reflexivity|].
  rewrite !trace_bind. cbn. by repeat case_match.
Qed.

Lemma saveFirstImage_outcome (env : Env) (flags : Flags) (response : ImageResponse) :
  outcome (saveFirstImage env flags response) =
  match Images response with
  | [] => inl NoImagesReturned
  | first :: _ =>
      let outPath :=
        if String.eqb (output flags) "" then defaultOutputPath env (format flags)
        else if isDir env (output flags)
             then generatedIn env (output flags) (format flags)
             else output flags in
      match httpGetToFile env (URL first) outPath with
      | Some err => inl (SaveFailed err)
      | None => inr (Saved outPath response)
      end
  end.
Proof.
  unfold saveFirstImage, downloadImage.
  destruct (Images response); [reflexivity|].
  cbv zeta. rewrite !outcome_bind. cbn. by destruct (httpGetToFile _ _ _).
Qed.

(** The trace and the outcome of a run that got as far as the call. *)
Lemma call_then_save (env : Env) (flags : Flags) (apiKey modelPath : string)
    (req : ImageRequest) :
  let call := callFALAPI env apiKey modelPath req in
  let run := bind (mapErr CallFailed call) (saveFirstImage env flags) in
  trace run =
    HttpPost (falBaseURL +:+ "/" +:+ modelPath) apiKey (marshal req)
    :: match outcome call with
       | inl _ => []
       | inr response => trace (saveFirstImage env flags response)
       end
  ∧ outcome run =
    match outcome call with
    | inl e => inl (CallFailed e)
    | inr response => outcome (saveFirstImage env flags response)
    end.
Proof.
  cbv zeta. rewrite trace_bind, outcome_bind. cbn [mapErr trace outcome].
  rewrite callFALAPI_trace. by destruct (outcome (callFALAPI _ _ _ _)).
Qed.

(** X9: a run sends nothing, or one POST, or one POST followed by one
    GET.  The GET is sent only after the API answered the POST with
    status 200 and a body that decodes to at least one image, and it
    fetches the URL of the first image; a run that sent nothing or only
    the POST did not save an image. *)
Theorem run_traffic_shape
    (env : Env) (entries : list (string * string)) (flags : Flags) (args : list string) :
  let run := runGenerateIn env entries flags args in
  (trace run = [] ∧ ∀ outPath response, outcome run ≠ inr (Saved outPath response))
  ∨ ∃ url apiKey payload,
      (trace run = [HttpPost url apiKey payload] ∧ exitCode run = 1)
      ∨ ∃ body response first others,
          httpDo env url apiKey payload = Ok (200, Ok body)
          ∧ unmarshalImageResponse body = Some response
          ∧ Images response = first :: others
          ∧ trace run = [HttpPost url apiKey payload; HttpGet (URL first)].
Proof.
  cbv zeta.
  destruct (runGenerateIn_view env entries flags args)
    as [Hnil | (prompt & apiKey & info & imageURLs & _ & _ & _ & _ & ->)];
    cbn zeta in *; [by left|].
  right.
  set (modelPath := if (0 <? length (inputImages flags))%nat
                    then EditPath info else GenPath info).
  set (req := requestOf env entries flags prompt info imageURLs).
  exists (falBaseURL +:+ "/" +:+ modelPath), apiKey, (marshal req).
  destruct (call_then_save env flags apiKey modelPath req) as [Htrace Houtcome].
  cbv zeta in Htrace, Houtcome. unfold exitCode.
  rewrite Htrace, Houtcome, callFALAPI_outcome.
  destruct (httpDo env _ apiKey (marshal req)) as [[status [body|err]]|err]; [|by left..].
  destruct (Z.eqb_spec status 200) as [-> | Hstatus]; [|by left].
  destruct (unmarshalImageResponse body) as [response|] eqn:Hbody; [|by left].
  rewrite saveFirstImage_trace, saveFirstImage_outcome.
  destruct (Images response) as [|first others] eqn:Himages; [by left|].
  right. by exists body, response, first, others.
Qed.

(** X10: every POST of a run carries the key [getAPIKey] found, and goes
    to [https://fal.run/fal-ai/...]: to the generation path of the
    resolved model when no input image is given, to its edit path, which
    is not empty, when one is. *)
Theorem post_goes_to_model_endpoint
    (env : Env) (entries : list (string * string)) (flags : Flags) (args : list string)
    (url apiKey : string) (payload : json) :
  HttpPost url apiKey payload ∈ trace (runGenerateIn env entries flags args) →
  falKey env = Some apiKey
  ∧ String.prefix "https://fal.run/fal-ai/" url = true
  ∧ ∃ info,
      models !! resolveModel (model flags) = Some info
      ∧ ((inputImages flags = [] ∧ url = "https://fal.run/" +:+ GenPath info)
         ∨ (inputImages flags ≠ [] ∧ EditPath info ≠ ""
            ∧ url = "https://fal.run/" +:+ EditPath info)).
Proof.
  destruct (runGenerateIn_view env entries flags args)
    as [[Hnil _] | (prompt & key & info & imageURLs & _ & Hkey & Hinfo & Hread & ->)];
    cbn zeta in *; [rewrite Hnil; by intros ?%elem_of_nil|].
  set (modelPath := if (0 <? length (inputImages flags))%nat
                    then EditPath info else GenPath info) in *.
  set (req := requestOf env entries flags prompt info imageURLs).
  destruct (call_then_save env flags key modelPath req) as [-> _].
  intros [Hpost | Hget]%elem_of_cons.
  - injection Hpost as -> -> ->. split; [done|].
    assert ((inputImages flags = [] ∧ modelPath = GenPath info)
            ∨ (inputImages flags ≠ [] ∧ EditPath info ≠ "" ∧ modelPath = EditPath info))
      as Hpath.
    { subst modelPath. destruct (inputImages flags); cbn in *; [by left|].
      right. by destruct Hread. }
    split; [|exists info; split; [done|]; destruct Hpath as [[? ->]|(? & ? & ->)];
             [by left|by right]].
    apply models_cases in Hinfo.
    clear Hread req.
    repeat (apply elem_of_cons in Hinfo as [[= _ ->]|Hinfo];
            [by destruct Hpath as [[_ ->]|(_ & ? & ->)]|]).
    by apply elem_of_nil in Hinfo.
  - exfalso. destruct (outcome (callFALAPI _ _ _ _)) as [e|response];
      [by apply elem_of_nil in Hget|].
    rewrite saveFirstImage_trace in Hget.
    destruct (Images response); [by apply elem_of_nil in Hget|].
    by apply list_elem_of_singleton in Hget.
Qed.

Lemma post_goes_to_model_endpoint_witness :
  falKey (sampleEnv 200 oneImage) = Some "secret"
  ∧ String.prefix "https://fal.run/fal-ai/" "https://fal.run/fal-ai/qwen-image-edit-plus" = true
  ∧ ∃ info,
      models !! resolveModel (model (editFlags "qwen" (-1) ["photo.PNG"])) = Some info
      ∧ ((inputImages (editFlags "qwen" (-1) ["photo.PNG"]) = []
          ∧ "https://fal.run/fal-ai/qwen-image-edit-plus" = "https://fal.run/" +:+ GenPath info)
         ∨ (inputImages (editFlags "qwen" (-1) ["photo.PNG"]) ≠ [] ∧ EditPath info ≠ ""
            ∧ "https://fal.run/fal-ai/qwen-image-edit-plus"
              = "https://fal.run/" +:+ EditPath info)).
Proof.
  apply (post_goes_to_model_endpoint (sampleEnv 200 oneImage) (map_to_list ratioToPreset)
           (editFlags "qwen" (-1) ["photo.PNG"]) ["add sunglasses"] _ _
           (JObject [("prompt", JString "add sunglasses");
                     ("image_size", JString "landscape_16_9");
                     ("output_format", JString "png");
                     ("image_urls", JArray [JString "data:image/png;base64,Ynl0ZXM="]);
                     ("enable_safety_checker", JBool false)])).
  vm_compute. apply list_elem_of_here.
Defined.

(** X11: a run that ends with a saved image got a response with at least
    one image, its last request fetched the URL of the first image into
    the output path, and the output path is the output flag when that is
    set and names no directory, a generated name in the directory it
    names, and the default output path when the flag is empty. *)
Theorem saved_run_output
    (env : Env) (entries : list (string * string)) (flags : Flags) (args : list string)
    (outPath : string) (response : ImageResponse) :
  outcome (runGenerateIn env entries flags args) = inr (Saved outPath response) →
  (∃ first others,
     Images response = first :: others
     ∧ last (trace (runGenerateIn env entries flags args)) = Some (HttpGet (URL first))
     ∧ httpGetToFile env (URL first) outPath = None)
  ∧ (output flags = "" → outPath = defaultOutputPath env (format flags))
  ∧ (output flags ≠ "" → isDir env (output flags) = true →
       outPath = generatedIn env (output flags) (format flags))
  ∧ (output flags ≠ "" → isDir env (output flags) = false → outPath = output flags).
Proof.
  destruct (runGenerateIn_view env entries flags args)
    as [[_ Hnot] | (prompt & key & info & imageURLs & _ & _ & _ & _ & ->)];
    cbn zeta in *; [by intros ?%Hnot|].
  set (modelPath := if (0 <? length (inputImages flags))%nat
                    then EditPath info else GenPath info).
  set (req := requestOf env entries flags prompt info imageURLs).
  destruct (call_then_save env flags key modelPath req) as [-> ->].
  destruct (outcome (callFALAPI _ _ _ _)) as [e|r]; [done|].
  rewrite saveFirstImage_trace, saveFirstImage_outcome.
  destruct (Images r) as [|first others] eqn:Himages; [done|].
  cbv zeta.
  destruct (httpGetToFile env (URL first) _) as [err|] eqn:Hget; [done|].
  intros [= <- <-].
  split; [exists first, others; by rewrite Himages|].
  destruct (String.eqb_spec (output flags) "") as [-> | Hne]; [done|].
  by destruct (isDir env (output flags)).
Qed.

Lemma saved_run_output_witness :
  ∃ first others,
    Images {| Images := [{| URL := "https://x/y.png"; Width := 1024; Height := 768;
                            ContentType := "image/png" |}];
              ResponseSeed := 7 |} = first :: others
    ∧ last (trace (runGenerateIn (sampleEnv 200 oneImage) (map_to_list ratioToPreset)
                     sampleFlags ["a cat"])) = Some (HttpGet (URL first))
    ∧ httpGetToFile (sampleEnv 200 oneImage) (URL first) "out/generated_0.png" = None.
Proof.
  refine (proj1 (saved_run_output (sampleEnv 200 oneImage) (map_to_list ratioToPreset)
                   sampleFlags ["a cat"] "out/generated_0.png" _ _)).
  vm_compute. reflexivity.
Defined.

(** ** How a run fails *)

Lemma readImages_error (env : Env) (paths : list string) (i : Z) (acc : list string)
    (e : FatalError) :
  outcome (readImages env i paths acc) = inl e →
  paths ≠ [] ∧ ∃ ordinal path err, e = ImageReadError ordinal path err.
Proof.
  revert i acc. induction paths as [|path paths IH]; intros i acc; cbn; [done|].
  destruct (imageToDataURI env path) as [uri|err].
  - intros [_ He]%IH. by split.
  - intros [= <-]. split; [done|]. by exists (i + 1), path, err.
Qed.

(** Rewrites the outcome of a run that got as far as the call. *)
Ltac after_call flags He :=
  match type of He with
  | outcome (bind (mapErr CallFailed (callFALAPI ?env ?key ?path ?req)) _) = _ =>
      let Hout := fresh "Hout" in
      pose proof (eq_trans (eq_sym (proj2 (call_then_save env flags key path req))) He)
        as Hout;
      clear He; rename Hout into He
  end.

(** The error a run ends with, by the stage that raised it. *)
Lemma runGenerateIn_error (env : Env) (entries : list (string * string)) (flags : Flags)
    (args : list string) (e : FatalError) :
  outcome (runGenerateIn env entries flags args) = inl e →
  args ≠ []
  ∧ ((e = NoAPIKey ∧ falKey env = None)
     ∨ (is_Some (falKey env)
        ∧ ((e = UnknownModel (model flags) ∧ models !! resolveModel (model flags) = None)
           ∨ ∃ info,
               models !! resolveModel (model flags) = Some info
               ∧ ((e = NoEditSupport (model flags)
                   ∧ inputImages flags ≠ [] ∧ EditPath info = "")
                  ∨ ((inputImages flags = [] ∨ EditPath info ≠ "")
                     ∧ ((∃ ordinal path err, e = ImageReadError ordinal path err)
                        ∨ (∃ callError, e = CallFailed callError)
                        ∨ e = NoImagesReturned
                        ∨ ∃ err, e = SaveFailed err)))))).
Proof.
  unfold runGenerateIn, getAPIKey.
  destruct args as [|prompt rest]; [done|].
  intros He. split; [done|]. revert He.
  destruct (falKey env) as [apiKey|]; [|intros [= <-]; by left].
  rewrite bind_ret. intros He. right. split; [done|]. revert He.
  destruct (models !! resolveModel (model flags)) as [info|]; [|intros [= <-]; by left].
  rewrite bind_ret. intros He. right. exists info. split; [done|]. revert He.
  destruct (inputImages flags) as [|first others] eqn:Himages; cbn [length Nat.ltb Nat.leb].
  - rewrite !bind_ret. intros He. right. split; [by left|].
    after_call flags He. revert He.
    destruct (outcome (callFALAPI _ _ _ _)) as [callError|response];
      [intros [= <-]; right; left; by exists callError|].
    rewrite saveFirstImage_outcome.
    destruct (Images response); [intros [= <-]; by right; right; left|].
    cbv zeta. destruct (httpGetToFile _ _ _) as [err|]; [|done].
    intros [= <-]. right. right. right. by exists err.
  - destruct (String.eqb_spec (EditPath info) "") as [Hempty | Hedit];
      [intros [= <-]; by left|].
    rewrite bind_ret. intros He. right. split; [by right|]. revert He.
    rewrite <- Himages.
    pose proof (readImages_trace env (inputImages flags) 0 []) as Htrace.
    pose proof (readImages_error env (inputImages flags) 0 []) as Herror.
    destruct (readImages env 0 (inputImages flags) []) as [t [e' | imageURLs]];
      cbn in Htrace, Herror; subst t.
    + intros [= <-]. left. by destruct (Herror e' eq_refl) as [_ ?].
    + change (MkEff [] (inr imageURLs)) with (@ret FatalError _ imageURLs).
      rewrite !bind_ret. intros He. after_call flags He. revert He.
      destruct (outcome (callFALAPI _ _ _ _)) as [callError|response];
        [intros [= <-]; right; left; by exists callError|].
      rewrite saveFirstImage_outcome.
      destruct (Images response); [intros [= <-]; by right; right; left|].
      cbv zeta. destruct (httpGetToFile _ _ _) as [err|]; [|done].
      intros [= <-]. right. right. right. by exists err.
Qed.

(** X12: which check fails first.  Without a prompt the help is shown,
    whatever else is wrong.  With a prompt, the run ends with the error
    of the missing key exactly when [getAPIKey] finds none; with that of
    the unknown model exactly when a key is found and the resolved name
    is not in [models]; with that of the missing edit support exactly
    when a key is found, the model is known, input images are given and
    its edit path is empty.  Each of the three names the model as it was
    given, not as it was resolved, and none of them is raised once an
    image was read or a request sent. *)
Theorem fatal_error_precedence
    (env : Env) (entries : list (string * string)) (flags : Flags) (args : list string) :
  let run := runGenerateIn env entries flags args in
  (args = [] → run = ret HelpShown)
  ∧ (outcome run = inl NoAPIKey ↔ args ≠ [] ∧ falKey env = None)
  ∧ (∀ name,
       outcome run = inl (UnknownModel name) ↔
       args ≠ [] ∧ is_Some (falKey env) ∧ name = model flags
       ∧ models !! resolveModel (model flags) = None)
  ∧ (∀ name,
       outcome run = inl (NoEditSupport name) ↔
       args ≠ [] ∧ is_Some (falKey env) ∧ name = model flags
       ∧ inputImages flags ≠ []
       ∧ ∃ info, models !! resolveModel (model flags) = Some info ∧ EditPath info = "")
  ∧ (∀ name, (outcome run = inl NoAPIKey ∨ outcome run = inl (UnknownModel name)
              ∨ outcome run = inl (NoEditSupport name)) → trace run = []).
Proof.
  cbv zeta.
  assert (∀ e, outcome (runGenerateIn env entries flags args) = inl e →
               (e = NoAPIKey ∨ (∃ name, e = UnknownModel name)
                ∨ ∃ name, e = NoEditSupport name) →
               trace (runGenerateIn env entries flags args) = []) as Hquiet.
  { intros e He Hearly.
    destruct (runGenerateIn_view env entries flags args)
      as [[Hnil _] | (prompt & key & info & imageURLs & _ & _ & _ & _ & Hrun)];
      cbn zeta in *; [done|].
    exfalso. rewrite Hrun in He.
    match type of He with
    | outcome (bind (mapErr CallFailed (callFALAPI ?env ?key ?path ?req)) _) = _ =>
        destruct (call_then_save env flags key path req) as [_ Hout]
    end.
    cbv zeta in Hout. rewrite Hout in He. clear Hout Hrun.
    destruct (outcome (callFALAPI _ _ _ _)) as [callError|response].
    - injection He as <-. by destruct Hearly as [?|[[? ?]|[? ?]]].
    - rewrite saveFirstImage_outcome in He.
      destruct (Images response).
      + injection He as <-. by destruct Hearly as [?|[[? ?]|[? ?]]].
      + cbv zeta in He. destruct (httpGetToFile _ _ _); [|done].
        injection He as <-. by destruct Hearly as [?|[[? ?]|[? ?]]]. }
  refine (conj _ (conj _ (conj _ (conj _ _)))).
  - by intros ->.
  - split.
    + intros [Hargs Hcase]%runGenerateIn_error. split; [done|].
      destruct Hcase as [[_ ?]|[_ [[? _]|(info & _ & [[? _]|[_ Hlate]])]]]; try done.
      by destruct Hlate as [(? & ? & ? & ?)|[[? ?]|[?|[? ?]]]].
    + intros [Hargs Hkey]. unfold runGenerateIn, getAPIKey.
      destruct args; [done|]. by rewrite Hkey.
  - intros name. split.
    + intros [Hargs Hcase]%runGenerateIn_error. split; [done|].
      destruct Hcase as [[? _]|[Hkey [[[= ->] Hnone]|(info & _ & [[? _]|[_ Hlate]])]]];
        try done.
      by destruct Hlate as [(? & ? & ? & ?)|[[? ?]|[?|[? ?]]]].
    + intros (Hargs & [apiKey Hkey] & -> & Hnone). unfold runGenerateIn, getAPIKey.
      destruct args; [done|]. by rewrite Hkey, bind_ret, Hnone.
  - intros name. split.
    + intros [Hargs Hcase]%runGenerateIn_error. split; [done|].
      destruct Hcase
        as [[? _]|[Hkey [[? _]|(info & Hinfo & [([= ->] & Himages & Hedit)|[_ Hlate]])]]];
        try done.
      * split_and!; try done. by exists info.
      * by destruct Hlate as [(? & ? & ? & ?)|[[? ?]|[?|[? ?]]]].
    + intros (Hargs & [apiKey Hkey] & -> & Himages & info & Hinfo & Hedit).
      unfold runGenerateIn, getAPIKey.
      destruct args; [done|]. rewrite Hkey, bind_ret, Hinfo, bind_ret, Hedit.
      by destruct (inputImages flags).
  - intros name [He|[He|He]]; apply (Hquiet _ He); eauto.
Qed.

(** X13: with the model that is used when [--model] is not given, a run
    with an input image is refused: nothing is read or sent and the run
    ends with exit code 1, with the error of the missing edit support
    when a key is found.  That model is the only registered one without
    an edit path. *)
Theorem default_model_refuses_input_images
    (env : Env) (entries : list (string * string)) (flags : Flags)
    (prompt : string) (rest : list string) :
  model flags = model defaultFlags →
  inputImages flags ≠ [] →
  let run := runGenerateIn env entries flags (prompt :: rest) in
  trace run = []
  ∧ exitCode run = 1
  ∧ (∀ apiKey, falKey env = Some apiKey → outcome run = inl (NoEditSupport "z-turbo"))
  ∧ (∀ name info, models !! resolveModel name = Some info →
       (EditPath info = "" ↔ resolveModel name = "z-turbo")).
Proof.
  intros Hmodel Himages. cbv zeta.
  assert (models !! resolveModel (model flags)
          = Some (Build_ModelInfo "fal-ai/z-image/turbo" "" false "image_size")) as Hinfo.
  { rewrite Hmodel. vm_compute. reflexivity. }
  unfold runGenerateIn, getAPIKey, exitCode.
  refine (conj _ (conj _ (conj _ _))).
  - destruct (falKey env); [|done]. rewrite bind_ret, Hinfo, bind_ret.
    by destruct (inputImages flags).
  - destruct (falKey env); [|done]. rewrite bind_ret, Hinfo, bind_ret.
    by destruct (inputImages flags).
  - intros apiKey ->. rewrite bind_ret, Hinfo, bind_ret, Hmodel.
    by destruct (inputImages flags).
  - intros name info Hname. by apply models_invariants.
Qed.

Lemma default_model_refuses_input_images_witness :
  outcome (runGenerateIn (sampleEnv 200 oneImage) (map_to_list ratioToPreset)
             (editFlags "z-turbo" (-1) ["photo.PNG"]) ["add sunglasses"])
  = inl (NoEditSupport "z-turbo").
Proof.
  refine (proj1 (proj2 (proj2
    (default_model_refuses_input_images (sampleEnv 200 oneImage)
       (map_to_list ratioToPreset) (editFlags "z-turbo" (-1) ["photo.PNG"])
       "add sunglasses" [] _ _))) "secret" _).
  - reflexivity.
  - discriminate.
  - reflexivity.
Defined.

(** X14: an alias runs as its target.  Every alias names a registered
    model that is not itself an alias, and a run with the alias as
    [--model] is the run with the target: the same requests and the same
    result. *)
Theorem alias_runs_as_target
    (env : Env) (entries : list (string * string)) (flags : Flags) (args : list string)
    (alias target : string) :
  modelAliases !! alias = Some target →
  is_Some (models !! target)
  ∧ resolveModel target = target
  ∧ runGenerateIn env entries (withModel alias flags) args
    = runGenerateIn env entries (withModel target flags) args.
Proof.
  intros Halias. apply elem_of_list_to_map_2, list_elem_of_singleton in Halias.
  injection Halias as -> ->.
  assert (resolveModel "flux2" = "flux2-pro") as Hresolve by (vm_compute; reflexivity).
  assert (resolveModel "flux2-pro" = "flux2-pro") as Hfixed by (vm_compute; reflexivity).
  assert (models !! "flux2-pro"
          = Some (Build_ModelInfo "fal-ai/flux-2-pro" "fal-ai/flux-2-pro/edit" true
                    "image_size")) as Hinfo by (vm_compute; reflexivity).
  refine (conj _ (conj Hfixed _)); [by rewrite Hinfo|].
  unfold runGenerateIn, getAPIKey.
  destruct args as [|prompt rest]; [done|].
  destruct (falKey env); [|done].
  cbn [model size format output seed inputImages withModel].
  rewrite !bind_ret, Hresolve, Hfixed, Hinfo, !bind_ret.
  by destruct (inputImages flags).
Qed.

Lemma alias_runs_as_target_witness :
  is_Some (models !! "flux2-pro")
  ∧ resolveModel "flux2-pro" = "flux2-pro"
  ∧ runGenerateIn (sampleEnv 200 oneImage) (map_to_list ratioToPreset)
      (withModel "flux2" sampleFlags) ["a cat"]
    = runGenerateIn (sampleEnv 200 oneImage) (map_to_list ratioToPreset)
        (withModel "flux2-pro" sampleFlags) ["a cat"].
Proof.
  apply alias_runs_as_target.
  vm_compute. reflexivity.
Defined.

(** ** The search for the API key *)

Lemma Getenv_godotenvLoad (host : Host) (file : string) (vars : gmap string string)
    (key : string) :
  Getenv (godotenvLoad host file vars) key =
  match vars !! key with
  | Some value => value
  | None =>
      match dotenvRead host file with
      | Some fileVars => Getenv fileVars key
      | None => ""
      end
  end.
Proof.
  unfold Getenv, godotenvLoad.
  destruct (dotenvRead host file) as [fileVars|].
  - rewrite lookup_union. by destruct (vars !! key), (fileVars !! key).
  - by destruct (vars !! key).
Qed.

Lemma godotenvLoad_lookup_Some (host : Host) (file : string) (vars : gmap string string)
    (key value : string) :
  vars !! key = Some value → godotenvLoad host file vars !! key = Some value.
Proof.
  intros Hvars. unfold godotenvLoad.
  destruct (dotenvRead host file); [|done].
  by apply lookup_union_Some_l.
Qed.

(** X15: where [getAPIKey] takes the key from.  A key it returns is never
    empty.  A variable [FAL_KEY] of the environment decides alone: its
    value is the key, and when it is set to the empty string no key is
    found, whatever the files hold.  When the environment does not set
    it, [.env] of the working directory decides if it defines the
    variable, an empty definition again meaning that no key is found.
    Only when neither defines it, the file [.env] of the directory
    [.gen-cli] of the home directory is read, and the key is what that
    file defines, if the home directory is known and the definition is
    not empty. *)
Theorem api_key_search_order (host : Host) :
  let vars := godotenvLoad host ".env" (environ host) in
  let envPath := pathJoin host (getGenCLIDir host vars) ".env" in
  (∀ key, getAPIKeyOn host = Some key → key ≠ "")
  ∧ (∀ key, environ host !! "FAL_KEY" = Some key →
       getAPIKeyOn host = if String.eqb key "" then None else Some key)
  ∧ (∀ fileVars key,
       environ host !! "FAL_KEY" = None →
       dotenvRead host ".env" = Some fileVars → fileVars !! "FAL_KEY" = Some key →
       getAPIKeyOn host = if String.eqb key "" then None else Some key)
  ∧ (vars !! "FAL_KEY" = None →
       (∀ fileVars key,
          getGenCLIDir host vars ≠ "" →
          dotenvRead host envPath = Some fileVars → fileVars !! "FAL_KEY" = Some key →
          getAPIKeyOn host = if String.eqb key "" then None else Some key)
       ∧ (getGenCLIDir host vars = "" → getAPIKeyOn host = None)
       ∧ (dotenvRead host envPath = None → getAPIKeyOn host = None)
       ∧ (∀ fileVars, dotenvRead host envPath = Some fileVars →
            fileVars !! "FAL_KEY" = None → getAPIKeyOn host = None)).
Proof.
  cbv zeta. refine (conj _ (conj _ (conj _ _))).
  - intros key. unfold getAPIKeyOn.
    repeat match goal with
           | |- context [negb (String.eqb ?s "")] =>
               destruct (String.eqb_spec s "") as [?|?]; cbn [negb]
           end; try done; congruence.
  - intros key Hkey. unfold getAPIKeyOn.
    assert (Getenv (environ host) "FAL_KEY" = key) as -> by (unfold Getenv; by rewrite Hkey).
    destruct (String.eqb_spec key "") as [-> | Hne]; cbn [negb]; [|done].
    rewrite Getenv_godotenvLoad, Hkey. cbn [String.eqb negb].
    destruct (negb (String.eqb (getGenCLIDir host _) "")); [|done].
    rewrite Getenv_godotenvLoad.
    by rewrite (godotenvLoad_lookup_Some host ".env" _ _ _ Hkey).
  - intros fileVars key Hnone Hfile Hkey. unfold getAPIKeyOn.
    assert (Getenv (environ host) "FAL_KEY" = "") as -> by (unfold Getenv; by rewrite Hnone).
    cbn [String.eqb negb].
    assert (godotenvLoad host ".env" (environ host) !! "FAL_KEY" = Some key) as Hloaded.
    { unfold godotenvLoad. rewrite Hfile, lookup_union, Hnone, Hkey. done. }
    assert (Getenv (godotenvLoad host ".env" (environ host)) "FAL_KEY" = key) as ->
      by (unfold Getenv; by rewrite Hloaded).
    destruct (String.eqb_spec key "") as [-> | Hne]; cbn [negb]; [|done].
    destruct (negb (String.eqb (getGenCLIDir host _) "")); [|done].
    by rewrite Getenv_godotenvLoad, Hloaded.
  - intros Hnone.
    assert (environ host !! "FAL_KEY" = None) as Henv.
    { destruct (environ host !! "FAL_KEY") as [value|] eqn:Hvalue; [|done].
      by rewrite (godotenvLoad_lookup_Some host ".env" _ _ _ Hvalue) in Hnone. }
    assert (getAPIKeyOn host =
            if negb (String.eqb (getGenCLIDir host (godotenvLoad host ".env" (environ host))) "")
            then match dotenvRead host
                         (pathJoin host
                            (getGenCLIDir host (godotenvLoad host ".env" (environ host)))
                            ".env") with
                 | Some fileVars =>
                     if negb (String.eqb (Getenv fileVars "FAL_KEY") "")
                     then Some (Getenv fileVars "FAL_KEY") else None
                 | None => None
                 end
            else None) as ->.
    { unfold getAPIKeyOn.
      assert (Getenv (environ host) "FAL_KEY" = "") as ->
        by (unfold Getenv; by rewrite Henv).
      assert (Getenv (godotenvLoad host ".env" (environ host)) "FAL_KEY" = "") as ->
        by (unfold Getenv; by rewrite Hnone).
      cbn [String.eqb negb].
      destruct (negb (String.eqb (getGenCLIDir host _) "")); [|done].
      rewrite Getenv_godotenvLoad, Hnone. by destruct (dotenvRead host _). }
    refine (conj _ (conj _ (conj _ _))).
    + intros fileVars key Hdir%String.eqb_neq Hfile Hkey.
      rewrite Hdir, Hfile. unfold Getenv. rewrite Hkey. cbn.
      by destruct (String.eqb key "").
    + by intros ->.
    + intros ->. by destruct (negb _).
    + intros fileVars -> Hkey. unfold Getenv. rewrite Hkey. by destruct (negb _).
Qed.

(** A host for the examples: no key in the environment, a working
    directory whose [.env] defines an empty key, and a home directory
    whose [.gen-cli/.env] defines a key. *)
Example getAPIKeyOn_empty_definition_hides_home :
  let host := {|
    environ := {["HOME" := "/home/u"]};
    dotenvRead file :=
      if String.eqb file ".env" then Some {["FAL_KEY" := ""]}
      else if String.eqb file "/home/u/.gen-cli/.env" then Some {["FAL_KEY" := "secret"]}
      else None;
    pathJoin dir name := dir +:+ "/" +:+ name
  |} in
  getAPIKeyOn host = None.
Proof. vm_compute. reflexivity. Qed.

Example getAPIKeyOn_home_file :
  let host := {|
    environ := {["HOME" := "/home/u"]};
    dotenvRead file :=
      if String.eqb file "/home/u/.gen-cli/.env" then Some {["FAL_KEY" := "secret"]}
      else None;
    pathJoin dir name := dir +:+ "/" +:+ name
  |} in
  getAPIKeyOn host = Some "secret".
Proof. vm_compute. reflexivity. Qed.

(** ** The subcommand [models] *)

Lemma aliasEntries_order (aliasEntries : list (string * string)) :
  aliasEntries ≡ₚ map_to_list modelAliases → aliasEntries = [("flux2", "flux2-pro")].
Proof.
  replace (map_to_list modelAliases) with [("flux2", "flux2-pro")]
    by (vm_compute; reflexivity).
  intros Hperm. symmetry in Hperm. by apply Permutation_singleton_l in Hperm.
Qed.

(** X16: the subcommand [models] prints, between its heading and its
    closing hint, one line for each of the six models and nothing else,
    in an order that depends on how the maps are iterated: the name
    padded to 17 columns, whether input images are accepted, and the
    alias by which [resolveModel] also knows the model. *)
Theorem models_listing
    (modelEntries : list (string * ModelInfo))
    (aliasEntries : string → list (string * string)) :
  modelEntries ≡ₚ map_to_list models →
  (∀ name, aliasEntries name ≡ₚ map_to_list modelAliases) →
  ∃ lines,
    listModels modelEntries aliasEntries =
      ["Available Models:" +:+ newline; newline] ++ lines
      ++ [newline;
          "Use -i flag to enable edit mode (e.g., gen " +:+ String "034" "prompt"
            +:+ String "034" " -i image.png)" +:+ newline]
    ∧ lines ≡ₚ
      ["  z-turbo            no edit" +:+ newline;
       "  qwen               supports edit" +:+ newline;
       "  flux2-pro          supports edit (alias: flux2)" +:+ newline;
       "  flux2-flex         supports edit" +:+ newline;
       "  nano-banana        supports edit" +:+ newline;
       "  nano-banana-pro    supports edit" +:+ newline].
Proof.
  intros Hmodels Haliases.
  exists (modelLines modelEntries aliasEntries). split; [reflexivity|].
  unfold modelLines.
  rewrite (list_fmap_ext _ (λ entry, modelLine [("flux2", "flux2-pro")] entry.1 entry.2)
             modelEntries)
    by (intros i entry _; by rewrite (aliasEntries_order _ (Haliases entry.1))).
  rewrite Hmodels.
  by_decide.
Qed.

Lemma models_listing_witness :
  ∃ lines,
    listModels (map_to_list models) (λ _, map_to_list modelAliases) =
      ["Available Models:" +:+ newline; newline] ++ lines
      ++ [newline;
          "Use -i flag to enable edit mode (e.g., gen " +:+ String "034" "prompt"
            +:+ String "034" " -i image.png)" +:+ newline]
    ∧ lines ≡ₚ
      ["  z-turbo            no edit" +:+ newline;
       "  qwen               supports edit" +:+ newline;
       "  flux2-pro          supports edit (alias: flux2)" +:+ newline;
       "  flux2-flex         supports edit" +:+ newline;
       "  nano-banana        supports edit" +:+ newline;
       "  nano-banana-pro    supports edit" +:+ newline].
Proof.
  apply models_listing.
  - reflexivity.
  - intros name. reflexivity.
Defined.

(** ** What a run does not depend on *)

Lemma sizeValueFor_order (env : Env) (entries : list (string * string)) (info : ModelInfo)
    (sizeFlag : string) (images : list string) :
  entries ≡ₚ map_to_list ratioToPreset →
  sizeValueFor env entries info sizeFlag images
  = sizeValueFor env (map_to_list ratioToPreset) info sizeFlag images.
Proof.
  intros Hentries. unfold sizeValueFor, getClosestRatioIn.
  destruct images as [|first others]; [done|].
  destruct (getImageDimensions env first) as [[width height] [err|]]; [done|].
  by rewrite (presetToRatio_order _ _ Hentries).
Qed.

Lemma sizeValueFor_auto (env : Env) (entries : list (string * string)) (info : ModelInfo)
    (images : list string) :
  sizeValueFor env entries info "auto" images = sizeValueFor env entries info "" images.
Proof. reflexivity. Qed.

(** X17: a run does not depend on the order in which the map
    [ratioToPreset] is iterated: run over any ordering of its entries, it
    sends the same requests and ends in the same way as over the
    canonical one. *)
Theorem run_independent_of_map_order
    (env : Env) (entries : list (string * string)) (flags : Flags) (args : list string) :
  entries ≡ₚ map_to_list ratioToPreset →
  runGenerateIn env entries flags args = runGenerate env flags args.
Proof.
  intros Hentries. unfold runGenerate, runGenerateIn, getAPIKey.
  destruct args as [|prompt rest]; [done|].
  destruct (falKey env) as [apiKey|]; [|done]. rewrite !bind_ret.
  destruct (models !! resolveModel (model flags)) as [info|]; [|done]. rewrite !bind_ret.
  by rewrite (sizeValueFor_order env entries info _ _ Hentries).
Qed.

Lemma run_independent_of_map_order_witness :
  runGenerateIn (sampleEnv 200 oneImage)
    [("16:9", "landscape_16_9"); ("4:3", "landscape_4_3"); ("1:1", "square_hd");
     ("3:4", "portrait_4_3"); ("9:16", "portrait_16_9")]
    (editFlags "qwen" (-1) ["photo.PNG"]) ["add sunglasses"]
  = runGenerate (sampleEnv 200 oneImage) (editFlags "qwen" (-1) ["photo.PNG"])
      ["add sunglasses"].
Proof.
  apply run_independent_of_map_order.
  by_decide.
Defined.

(** X18: the size [auto] is the same as no size: a run with [--size auto]
    sends the same requests and ends in the same way as the run without
    the flag, in generate mode as in edit mode and for every model. *)
Theorem size_auto_is_no_size
    (env : Env) (entries : list (string * string)) (flags : Flags) (args : list string) :
  runGenerateIn env entries (withSize "auto" flags) args
  = runGenerateIn env entries (withSize "" flags) args.
Proof.
  unfold runGenerateIn, getAPIKey.
  destruct args as [|prompt rest]; [done|].
  destruct (falKey env) as [apiKey|]; [|done]. rewrite !bind_ret.
  cbn [model size format output seed inputImages withSize].
  destruct (models !! resolveModel (model flags)) as [info|]; [|done]. rewrite !bind_ret.
  by rewrite sizeValueFor_auto.
Qed.

(** ** The size directive *)

Lemma ratioToPreset_presetToRatio (p : string) :
  p ∈ ["portrait_16_9"; "portrait_4_3"; "square_hd"; "landscape_4_3"; "landscape_16_9"] →
  ratioToPreset !! presetToRatio (map_to_list ratioToPreset) p = Some p.
Proof.
  intros Hp.
  repeat (apply elem_of_cons in Hp as [->|Hp]; [vm_compute; reflexivity|]).
  by apply elem_of_nil in Hp.
Qed.

(** What the loop of [getClosestPreset] selects: the initial [square_hd]
    when no preset is nearer than 999, else the first preset of least
    difference. *)
Lemma getClosestPreset_cases (width height : Z) :
  width ≠ 0 → height ≠ 0 →
  let ratio := Float64.div (Float64.of_int width) (Float64.of_int height) in
  (getClosestPreset width height = "square_hd"
   ∧ Forall (λ q, Float64.ltb (diffTo ratio q.2) (Float64.of_int 999) = false) aspectPresets)
  ∨ ∃ before p after,
      aspectPresets = before ++ p :: after
      ∧ getClosestPreset width height = p.1
      ∧ Float64.ltb (diffTo ratio p.2) (Float64.of_int 999) = true
      ∧ Forall (λ q, Float64.ltb (diffTo ratio q.2) (diffTo ratio p.2) = false) aspectPresets
      ∧ Forall (λ q, SFeqb (diffTo ratio q.2) (diffTo ratio p.2) = false) before.
Proof.
  intros Hw Hh. rewrite (getClosestPreset_loop width height Hw Hh).
  generalize (Float64.div (Float64.of_int width) (Float64.of_int height)).
  intros ratio. cbn zeta.
  destruct (closest_loop ratio aspectPresets closestInit)
    as [[Hres Hall] | (before & p & after & Heq & Hres & Hlt & Hall & Hbefore)].
  - left. split; [by rewrite Hres | exact Hall].
  - right. exists before, p, after.
    split; [exact Heq|]. split; [by rewrite Hres|]. split; [exact Hlt|].
    split; [exact Hall | exact Hbefore].
Qed.

(** The directive for a picture that was measured. *)
Lemma measured_directive (entries : list (string * string)) (width height : Z) :
  entries ≡ₚ map_to_list ratioToPreset →
  let d := getClosestRatioIn entries width height in
  d = getClosestRatio width height
  ∧ d = presetToRatio entries (getClosestPreset width height)
  ∧ ratioToPreset !! d = Some (getClosestPreset width height)
  ∧ ((width = 0 ∨ height = 0) → d = "1:1")
  ∧ (width ≠ 0 → height ≠ 0 →
       let ratio := Float64.div (Float64.of_int width) (Float64.of_int height) in
       (Exists (λ q, Float64.ltb (diffTo ratio q.2) (Float64.of_int 999) = true)
          aspectPresets →
        ∃ before p after,
          aspectPresets = before ++ p :: after
          ∧ ratioToPreset !! d = Some p.1
          ∧ Forall (λ q, Float64.ltb (diffTo ratio q.2) (diffTo ratio p.2) = false)
              aspectPresets
          ∧ Forall (λ q, SFeqb (diffTo ratio q.2) (diffTo ratio p.2) = false) before)
       ∧ (Forall (λ q, Float64.ltb (diffTo ratio q.2) (Float64.of_int 999) = false)
            aspectPresets →
          d = "1:1")).
Proof.
  intros Hperm. cbv zeta. unfold getClosestRatio, getClosestRatioIn.
  rewrite (presetToRatio_order _ _ Hperm).
  pose proof (ratioToPreset_presetToRatio _ (getClosestPreset_names width height)) as Hkey.
  refine (conj eq_refl (conj eq_refl (conj Hkey (conj _ _)))).
  - intros Hzero.
    assert (getClosestPreset width height = "square_hd") as ->.
    { unfold getClosestPreset. destruct Hzero as [-> | ->]; [done|]. by rewrite orb_true_r. }
    vm_compute. reflexivity.
  - intros Hw Hh.
    destruct (getClosestPreset_cases width height Hw Hh)
      as [[Hres Hfar] | (before & p & after & Heq & Hres & Hlt & Hall & Hbefore)];
      cbv zeta in *.
    + split.
      * intros (q & Hq & Hnear)%Exists_exists. exfalso.
        rewrite Forall_forall in Hfar. rewrite (Hfar q Hq) in Hnear. discriminate Hnear.
      * intros _. rewrite Hres. vm_compute. reflexivity.
    + split.
      * intros _. exists before, p, after.
        split; [exact Heq|]. split; [by rewrite <- Hres|].
        split; [exact Hall | exact Hbefore].
      * intros Hfar. exfalso. rewrite Forall_forall in Hfar.
        assert (Hp : p ∈ aspectPresets).
        { rewrite Heq. apply elem_of_app. right. apply list_elem_of_here. }
        rewrite (Hfar p Hp) in Hlt. discriminate Hlt.
Qed.

Lemma measured_directive_at (entries : list (string * string)) (width height : Z)
    (preset ratio : string) :
  entries ≡ₚ map_to_list ratioToPreset →
  getClosestPreset width height = preset →
  presetToRatio (map_to_list ratioToPreset) preset = ratio →
  getClosestRatioIn entries width height = ratio.
Proof.
  intros Hperm <- <-. unfold getClosestRatioIn. by rewrite (presetToRatio_order _ _ Hperm).
Qed.

(** C1: the size directive [sizeValue] is, in this order of priority:
    the size flag when it is neither empty nor [auto]; else [auto] in
    edit mode for a model that supports it; else in edit mode the result
    of the match of [getClosestRatio] on the decoded dimensions of the
    first input image, whatever the order in which the map is iterated,
    and no directive when the image cannot be decoded, the run going on
    to post its request without a size member; else [4:3] in generate
    mode.  These cases are all there are: no directive is set only when
    the image cannot be decoded.  The match returns the ratio of the
    first preset of least difference to width/height where some preset
    is nearer than 999 (16:9 for 1920 by 1080, 9:16 for 1080 by 1920),
    and [1:1] where a dimension is zero.  Where no preset is nearer than
    999 it returns [1:1] too, which is not the nearest ratio: for a
    picture of 2000 by 1 the directive is [1:1] although 16:9 is
    nearer. *)
Theorem size_directive_priority
    (env : Env) (entries : list (string * string)) (info : ModelInfo)
    (sizeFlag : string) (images : list string) :
  entries ≡ₚ map_to_list ratioToPreset →
  let d := sizeValueFor env entries info sizeFlag images in
  (sizeFlag ≠ "" → sizeFlag ≠ "auto" → d = sizeFlag)
  ∧ ((sizeFlag = "" ∨ sizeFlag = "auto") →
       (images ≠ [] → SupportsAutoImgSize info = true → d = "auto")
       ∧ (∀ first others,
            images = first :: others → SupportsAutoImgSize info = false →
            (∀ width height, imageDecodeConfig env first = Ok (width, height) →
               d = getClosestRatio width height
               ∧ d = presetToRatio entries (getClosestPreset width height)
               ∧ ratioToPreset !! d = Some (getClosestPreset width height)
               ∧ ((width = 0 ∨ height = 0) → d = "1:1")
               ∧ (width ≠ 0 → height ≠ 0 →
                    let ratio :=
                      Float64.div (Float64.of_int width) (Float64.of_int height) in
                    (Exists (λ q, Float64.ltb (diffTo ratio q.2) (Float64.of_int 999) = true)
                       aspectPresets →
                     ∃ before p after,
                       aspectPresets = before ++ p :: after
                       ∧ ratioToPreset !! d = Some p.1
                       ∧ Forall (λ q, Float64.ltb (diffTo ratio q.2) (diffTo ratio p.2)
                                      = false) aspectPresets
                       ∧ Forall (λ q, SFeqb (diffTo ratio q.2) (diffTo ratio p.2) = false)
                           before)
                    ∧ (Forall (λ q, Float64.ltb (diffTo ratio q.2) (Float64.of_int 999)
                                    = false) aspectPresets →
                       d = "1:1")))
            ∧ (imageDecodeConfig env first = Ok (1920, 1080) → d = "16:9")
            ∧ (imageDecodeConfig env first = Ok (1080, 1920) → d = "9:16")
            ∧ (imageDecodeConfig env first = Ok (800, 600) → d = "4:3")
            ∧ (imageDecodeConfig env first = Ok (600, 800) → d = "3:4")
            ∧ (imageDecodeConfig env first = Ok (1000, 1000) → d = "1:1")
            ∧ (imageDecodeConfig env first = Ok (2000, 1) → d = "1:1")
            ∧ (∀ err, imageDecodeConfig env first = Err err → d = ""))
       ∧ (images = [] → d = "4:3"))
  ∧ (d = "" →
       (sizeFlag = "" ∨ sizeFlag = "auto") ∧ SupportsAutoImgSize info = false
       ∧ ∃ first others err,
           images = first :: others ∧ imageDecodeConfig env first = Err err)
  ∧ (∀ flags prompt rest apiKey first others err,
       size flags = sizeFlag → inputImages flags = images →
       (sizeFlag = "" ∨ sizeFlag = "auto") →
       falKey env = Some apiKey →
       models !! resolveModel (model flags) = Some info →
       EditPath info ≠ "" → SupportsAutoImgSize info = false →
       images = first :: others →
       imageDecodeConfig env first = Err err →
       Forall (λ path, ∃ data, osReadFile env path = Ok data) images →
       ∃ url payload,
         posted (runGenerateIn env entries flags (prompt :: rest)) = [(url, payload)]
         ∧ ("image_size" ∉ keys payload) ∧ ("aspect_ratio" ∉ keys payload))
  ∧ (∃ r, ("landscape_16_9", r) ∈ aspectPresets
          ∧ ratioToPreset !! "16:9" = Some "landscape_16_9"
          ∧ Float64.ltb
              (diffTo (Float64.div (Float64.of_int 2000) (Float64.of_int 1)) r)
              (diffTo (Float64.div (Float64.of_int 2000) (Float64.of_int 1))
                 (Float64.of_int 1)) = true).
Proof.
  intros Hperm.
  assert (Hd : (sizeFlag = "" ∨ sizeFlag = "auto") → ∀ first others err,
            images = first :: others → SupportsAutoImgSize info = false →
            imageDecodeConfig env first = Err err →
            sizeValueFor env entries info sizeFlag images = "").
  { intros Hsize first others err -> Hauto Herr.
    unfold sizeValueFor, getImageDimensions. rewrite Hauto, Herr.
    by destruct Hsize as [-> | ->]. }
  assert (Hm : (sizeFlag = "" ∨ sizeFlag = "auto") → ∀ first others width height,
            images = first :: others → SupportsAutoImgSize info = false →
            imageDecodeConfig env first = Ok (width, height) →
            sizeValueFor env entries info sizeFlag images
            = getClosestRatioIn entries width height).
  { intros Hsize first others width height -> Hauto Hdec.
    unfold sizeValueFor, getImageDimensions. rewrite Hauto, Hdec.
    by destruct Hsize as [-> | ->]. }
  cbn zeta. refine (conj _ (conj _ (conj _ (conj _ _)))).
  - intros Hne%String.eqb_neq Hauto%String.eqb_neq. unfold sizeValueFor.
    by rewrite Hne, Hauto.
  - intros Hsize.
    assert (Hflag : negb (String.eqb sizeFlag "") && negb (String.eqb sizeFlag "auto") = false)
      by (by destruct Hsize as [-> | ->]).
    refine (conj _ (conj _ _)).
    + intros Himgs Hauto. unfold sizeValueFor. rewrite Hflag, Hauto. by destruct images.
    + intros first others Himages Hauto.
      refine (conj _ (conj _ (conj _ (conj _ (conj _ (conj _ (conj _ _))))))).
      * intros width height Hdec.
        rewrite (Hm Hsize first others width height Himages Hauto Hdec).
        apply (measured_directive entries width height Hperm).
      * intros Hdec. rewrite (Hm Hsize first others _ _ Himages Hauto Hdec).
        apply (measured_directive_at entries _ _ "landscape_16_9" _ Hperm);
          vm_compute; reflexivity.
      * intros Hdec. rewrite (Hm Hsize first others _ _ Himages Hauto Hdec).
        apply (measured_directive_at entries _ _ "portrait_16_9" _ Hperm);
          vm_compute; reflexivity.
      * intros Hdec. rewrite (Hm Hsize first others _ _ Himages Hauto Hdec).
        apply (measured_directive_at entries _ _ "landscape_4_3" _ Hperm);
          vm_compute; reflexivity.
      * intros Hdec. rewrite (Hm Hsize first others _ _ Himages Hauto Hdec).
        apply (measured_directive_at entries _ _ "portrait_4_3" _ Hperm);
          vm_compute; reflexivity.
      * intros Hdec. rewrite (Hm Hsize first others _ _ Himages Hauto Hdec).
        apply (measured_directive_at entries _ _ "square_hd" _ Hperm);
          vm_compute; reflexivity.
      * intros Hdec. rewrite (Hm Hsize first others _ _ Himages Hauto Hdec).
        apply (measured_directive_at entries _ _ "square_hd" _ Hperm);
          vm_compute; reflexivity.
      * intros err Herr. by apply (Hd Hsize first others err).
    + intros ->. unfold sizeValueFor. by rewrite Hflag.
  - unfold sizeValueFor, getImageDimensions, getClosestRatioIn.
    destruct (String.eqb_spec sizeFlag "") as [-> | Hne].
    + cbn [negb andb]. destruct images as [|first others]; [done|].
      cbn [length Nat.ltb Nat.leb andb]. destruct (SupportsAutoImgSize info); [done|].
      destruct (imageDecodeConfig env first) as [[width height]|err] eqn:Hdec.
      * by intros ?%(presetToRatio_nonempty entries).
      * intros _. split_and!; [by left | done |]. by exists first, others, err.
    + destruct (String.eqb_spec sizeFlag "auto") as [-> | Hne']; [|done].
      cbn [negb andb]. destruct images as [|first others]; [done|].
      cbn [length Nat.ltb Nat.leb andb]. destruct (SupportsAutoImgSize info); [done|].
      destruct (imageDecodeConfig env first) as [[width height]|err] eqn:Hdec.
      * by intros ?%(presetToRatio_nonempty entries).
      * intros _. split_and!; [by right | done |]. by exists first, others, err.
  - intros flags prompt rest apiKey first others err Hfsize Hfimgs Hsize Hkey Hinfo
      Hedit Hauto Himgs Herr Hread.
    destruct (readImages_ok env images 0 [] Hread) as [uris Huris].
    eexists _, _. split.
    + apply (posted_when_built env entries flags prompt rest apiKey info uris Hkey Hinfo).
      rewrite Hfimgs, Himgs. cbn [length Nat.ltb Nat.leb]. split; [done|].
      by rewrite <- Himgs.
    + unfold requestOf. rewrite Hfsize, Hfimgs, (Hd Hsize first others err Himgs Hauto Herr).
      split; apply member_None_keys.
      * rewrite member_image_size. cbn [setImageURLs ImageSize].
        destruct (setSeed_sizes (seed flags) (setSizeParam info "" (newRequest prompt (format flags))))
          as [-> _].
        unfold setSizeParam. by repeat case_match.
      * rewrite member_aspect_ratio. cbn [setImageURLs AspectRatio].
        destruct (setSeed_sizes (seed flags) (setSizeParam info "" (newRequest prompt (format flags))))
          as [_ ->].
        unfold setSizeParam. by repeat case_match.
  - exists (Float64.div (Float64.of_int 16) (Float64.of_int 9)).
    split; [do 4 apply list_elem_of_further; apply list_elem_of_here|].
    split; vm_compute; reflexivity.
Qed.

Lemma size_directive_priority_witness :
  sizeValueFor (sampleEnv 200 oneImage)
    [("16:9", "landscape_16_9"); ("4:3", "landscape_4_3"); ("1:1", "square_hd");
     ("3:4", "portrait_4_3"); ("9:16", "portrait_16_9")]
    qwenInfo "" ["photo.PNG"] = "16:9"
  ∧ sizeValueFor (sampleEnvOf (1080, 1920) 200 oneImage) (map_to_list ratioToPreset)
      qwenInfo "auto" ["photo.PNG"] = "9:16"
  ∧ sizeValueFor (sampleEnvOf (2000, 1) 200 oneImage) (map_to_list ratioToPreset)
      qwenInfo "" ["photo.PNG"] = "1:1".
Proof.
  refine (conj _ (conj _ _)).
  - assert (Hperm : [("16:9", "landscape_16_9"); ("4:3", "landscape_4_3");
                     ("1:1", "square_hd"); ("3:4", "portrait_4_3");
                     ("9:16", "portrait_16_9")] ≡ₚ map_to_list ratioToPreset)
      by by_decide.
    destruct (size_directive_priority (sampleEnv 200 oneImage) _ qwenInfo "" ["photo.PNG"]
                Hperm) as (_ & H & _).
    destruct (H (or_introl eq_refl)) as (_ & Hmeasured & _).
    destruct (Hmeasured "photo.PNG" [] eq_refl eq_refl) as (_ & Hwide & _).
    exact (Hwide eq_refl).
  - destruct (size_directive_priority (sampleEnvOf (1080, 1920) 200 oneImage)
                (map_to_list ratioToPreset) qwenInfo "auto" ["photo.PNG"]
                (Permutation_refl _)) as (_ & H & _).
    destruct (H (or_intror eq_refl)) as (_ & Hmeasured & _).
    destruct (Hmeasured "photo.PNG" [] eq_refl eq_refl) as (_ & _ & Htall & _).
    exact (Htall eq_refl).
  - destruct (size_directive_priority (sampleEnvOf (2000, 1) 200 oneImage)
                (map_to_list ratioToPreset) qwenInfo "" ["photo.PNG"]
                (Permutation_refl _)) as (_ & H & _).
    destruct (H (or_introl eq_refl)) as (_ & Hmeasured & _).
    destruct (Hmeasured "photo.PNG" [] eq_refl eq_refl) as (_ & _ & _ & _ & _ & _ & Hfar & _).
    exact (Hfar eq_refl).
Defined.
